(** * fileset_tool: artifact composition and archiving

    A shallow embedding of [build_tools/fileset_tool.py]: the platform test
    [evaluate_optional], the [ComponentDefaults] registry with its module-level
    initialisation, [do_artifact] and [do_artifact_archive].

    Conventions.
    - A Python [str] is a [string] whose characters are code points below 256.
    - Python objects read from a TOML descriptor are values of [pyval].
    - Code that can raise returns a [result]; code that also mutates returns the
      state reached together with the result, also when it raises.
    - The collaborators that are imported from other packages ([PatternMatcher],
      the hashing helpers, [tomllib], [pathlib]'s filesystem queries, [tarfile],
      [platform.system]) are variables of the sections that use them. *)

From Stdlib Require Import ZArith Ascii String List Bool Lia.
From stdpp Require Import base option list strings gmap sorting.
Import ListNotations.

Local Open Scope string_scope.
Local Open Scope list_scope.

(** ** Exceptions and results *)

Inductive exn : Type :=
| KeyError (msg : string)
| TypeError
| AttributeError
| OSError (msg : string).

Inductive result (A : Type) : Type :=
| Ok (a : A)
| Raise (e : exn).
Arguments Ok {A} a.
Arguments Raise {A} e.

Definition is_ok {A} (r : result A) : bool :=
  match r with Ok _ => true | Raise _ => false end.

(** State and exception monad: the state reached is returned in both cases. *)
Definition M (S A : Type) : Type := S -> result A * S.

Definition ret {S A} (a : A) : M S A := fun s => (Ok a, s).
Definition raise {S A} (e : exn) : M S A := fun s => (Raise e, s).
Definition bind {S A B} (m : M S A) (k : A -> M S B) : M S B :=
  fun s => match m s with
           | (Ok a, s') => k a s'
           | (Raise e, s') => (Raise e, s')
           end.
Definition gets {S A} (f : S -> A) : M S A := fun s => (Ok (f s), s).
Definition modify {S} (f : S -> S) : M S unit := fun s => (Ok tt, f s).

Declare Scope py_scope.
Delimit Scope py_scope with py.
Notation "x <- m ;; k" := (bind m (fun x => k))
  (at level 100, m at next level, right associativity) : py_scope.
Notation "m ;;; k" := (bind m (fun _ => k))
  (at level 100, right associativity) : py_scope.

(** ** Python values *)

Set Warnings "-register-all".

(** The values a TOML document can hold, plus [None] for a missing key.
    [POpaque] stands for the remaining TOML scalars (floats, dates, times):
    all the code does with them is test their truth value and, inside a list,
    take their [str()]. *)
Inductive pyval : Type :=
| PNone
| PBool (b : bool)
| PInt (n : Z)
| PStr (s : string)
| PList (vs : list pyval)
| PDict (kvs : list (string * pyval))
| POpaque (truth : bool) (shown : string).

(** [bool(v)] *)
Definition truthy (v : pyval) : bool :=
  match v with
  | PNone => false
  | PBool b => b
  | PInt n => negb (n =? 0)%Z
  | PStr s => negb (String.eqb s "")
  | PList vs => match vs with [] => false | _ => true end
  | PDict kvs => match kvs with [] => false | _ => true end
  | POpaque t _ => t
  end.

(** [d.get(k)] and [d[k]] on a dict kept as an insertion-ordered list of
    items. *)
Fixpoint dict_lookup (kvs : list (string * pyval)) (k : string) : option pyval :=
  match kvs with
  | [] => None
  | (k', v) :: rest => if String.eqb k' k then Some v else dict_lookup rest k
  end.

Definition dict_get (kvs : list (string * pyval)) (k : string) : pyval :=
  match dict_lookup kvs k with Some v => v | None => PNone end.

Definition dict_get_default (kvs : list (string * pyval)) (k : string)
    (d : pyval) : pyval :=
  match dict_lookup kvs k with Some v => v | None => d end.

(** ** Strings *)

(** [str.lower()] on code points below 256: [A-Z], and the upper-case letters
    of Latin-1, U+00C0 to U+00DE without the multiplication sign U+00D7. *)
Definition lower_char (c : ascii) : ascii :=
  let n := N_of_ascii c in
  if ((65 <=? n) && (n <=? 90)
      || (192 <=? n) && (n <=? 222) && negb (n =? 215))%N
  then ascii_of_N (n + 32)
  else c.

Fixpoint lower (s : string) : string :=
  match s with
  | EmptyString => EmptyString
  | String c rest => String (lower_char c) (lower rest)
  end.

(** ["\n"] *)
Definition nl : string := String (ascii_of_N 10) EmptyString.

(** [sep.join(items)] *)
Fixpoint join (sep : string) (items : list string) : string :=
  match items with
  | [] => ""
  | [x] => x
  | x :: rest => x +:+ sep +:+ join sep rest
  end.

(** [str.splitlines()]: the line boundaries among the code points below 256
    are LF, CR, CR LF, VT, FF, FS, GS, RS and NEL. *)
Definition is_linebreak (c : ascii) : bool :=
  let n := N_of_ascii c in
  ((n =? 10) || (n =? 13) || (n =? 11) || (n =? 12)
   || (n =? 28) || (n =? 29) || (n =? 30) || (n =? 133))%N.

Fixpoint splitlines_aux (s : string) (cur : string) (started : bool)
    : list string :=
  match s with
  | EmptyString => if started then [cur] else []
  | String c rest =>
      if is_linebreak c then
        match rest with
        | String c' rest' =>
            if ((N_of_ascii c =? 13) && (N_of_ascii c' =? 10))%N
            then cur :: splitlines_aux rest' "" false
            else cur :: splitlines_aux rest "" false
        | EmptyString => [cur]
        end
      else splitlines_aux rest (cur +:+ String c EmptyString) true
  end.

Definition splitlines (s : string) : list string := splitlines_aux s "" false.

(** ** evaluate_optional *)

Section Platform.
(** [platform.system()] *)
Variable platform_system : string.
(** [str(v)] for a value that is not a [str] *)
Variable str_other : pyval -> string.

Definition py_str (v : pyval) : string :=
  match v with
  | PStr s => s
  | _ => str_other v
  end.

(** The [for v in optional_value] loop with its early [return True]. *)
Fixpoint evaluate_optional_loop (system_name : string) (vs : list pyval)
    : bool :=
  match vs with
  | [] => false
  | v :: rest =>
      if String.eqb (lower (py_str v)) system_name then true
      else evaluate_optional_loop system_name rest
  end.

Definition evaluate_optional (optional_value : pyval) : bool :=
  match optional_value with
  | PNone => false
  | _ =>
      let optional_value :=
        match optional_value with
        | PStr _ => PList [optional_value]
        | _ => optional_value
        end in
      match optional_value with
      | PList vs =>
          let system_name := lower platform_system in
          evaluate_optional_loop system_name vs
      | _ => truthy optional_value
      end
  end.
End Platform.

(** ** The ComponentDefaults registry *)

(** A [ComponentDefaults] object: its two list attributes. *)
Record ComponentDefaults : Type := mkCD {
  includes : list string;
  excludes : list string
}.

(** The objects allocated so far, addressed by allocation index, and the
    class attribute [ComponentDefaults.ALL], a dict from names to objects. *)
Record Registry : Type := mkRegistry {
  heap : list ComponentDefaults;
  ALL : gmap string nat
}.

Definition empty_registry : Registry := mkRegistry [] ∅.

(** [ComponentDefaults.__init__(self, name, includes, excludes)]; the result
    is the object constructed. *)
Definition ComponentDefaults__init__ (name : string) (incs excs : list string)
    : M Registry nat :=
  fun st =>
    let self := length (heap st) in
    let st1 := mkRegistry (heap st ++ [mkCD incs excs]) (ALL st) in
    if negb (String.eqb name "") then
      match ALL st1 !! name with
      | Some _ =>
          (Raise (KeyError ("ComponentDefaults " +:+ name +:+ " already defined")),
           st1)
      | None => (Ok self, mkRegistry (heap st1) (<[name := self]> (ALL st1)))
      end
    else (Ok self, st1).

(** [ComponentDefaults.get(name)]: an object is always truthy, so the
    right operand of [or] runs exactly when the name is not a key. *)
Definition ComponentDefaults_get (name : string) : M Registry nat :=
  fun st =>
    match ALL st !! name with
    | Some obj => (Ok obj, st)
    | None => ComponentDefaults__init__ name [] [] st
    end.

(** Attribute reads on an object of the heap. *)
Definition obj_includes (obj : nat) (st : Registry) : list string :=
  match heap st !! obj with Some cd => includes cd | None => [] end.
Definition obj_excludes (obj : nat) (st : Registry) : list string :=
  match heap st !! obj with Some cd => excludes cd | None => [] end.

(** [obj.excludes.extend(items)] *)
Definition excludes_extend (obj : nat) (items : list string)
    : M Registry unit :=
  modify (fun st =>
    mkRegistry
      (alter (fun cd => mkCD (includes cd) (excludes cd ++ items)) obj (heap st))
      (ALL st)).

(** [ComponentDefaults.get(a).excludes.extend(ComponentDefaults.get(b).includes)] *)
Definition layer (a b : string) : M Registry unit :=
  (target <- ComponentDefaults_get a ;;
   source <- ComponentDefaults_get b ;;
   items <- gets (obj_includes source) ;;
   excludes_extend target items)%py.

(** The module-level statements, lines 68 to 124. *)
Definition module_init : M Registry unit :=
  (ComponentDefaults__init__ "dbg" [".build-id/**/*.debug"] [] ;;;
   ComponentDefaults__init__ "dev"
     ["**/*.a"; "**/*.lib"; "**/cmake/**"; "**/include/**";
      "**/share/modulefiles/**"; "**/pkgconfig/**"] [] ;;;
   ComponentDefaults__init__ "lib"
     ["**/*.dll"; "**/*.dylib"; "**/*.dylib.*"; "**/*.so"; "**/*.so.*"] [] ;;;
   ComponentDefaults__init__ "run" [] [] ;;;
   ComponentDefaults__init__ "doc" ["**/share/doc/**"] [] ;;;
   layer "dev" "lib" ;;;
   layer "dev" "run" ;;;
   layer "dev" "doc" ;;;
   layer "lib" "dev" ;;;
   layer "lib" "run" ;;;
   layer "lib" "doc" ;;;
   layer "run" "dev" ;;;
   layer "run" "lib" ;;;
   layer "run" "doc")%py.

(** The registry as the rest of the program sees it after import. *)
Definition builtin_registry : Registry := snd (module_init empty_registry).

(** [ComponentDefaults.ALL.get(name)] followed by an attribute read; [None]
    when the name is not a key. *)
Definition registered (st : Registry) (name : string)
    : option ComponentDefaults :=
  obj ← ALL st !! name; heap st !! obj.


(** ** Paths *)

(** A [pathlib] path in its POSIX flavour: whether it is anchored at the root,
    and its components. Parsing a string drops empty and ["."] components. *)
Record Path : Type := mkPath {
  absolute : bool;
  parts : list string
}.

Definition slash : ascii := ascii_of_N 47.

Fixpoint split_slash (s cur : string) : list string :=
  match s with
  | EmptyString => [cur]
  | String c rest =>
      if Ascii.eqb c slash then cur :: split_slash rest ""
      else split_slash rest (cur +:+ String c EmptyString)
  end.

Definition keep_part (s : string) : bool :=
  negb (String.eqb s "") && negb (String.eqb s ".").

(** [Path(s)] *)
Definition Path_of (s : string) : Path :=
  mkPath
    (match s with String c _ => Ascii.eqb c slash | EmptyString => false end)
    (List.filter keep_part (split_slash s "")).

(** [p / s]: an absolute right operand replaces the left one. *)
Definition joinpath (p : Path) (s : string) : Path :=
  let q := Path_of s in
  if absolute q then q else mkPath (absolute p) (parts p ++ parts q).

(** [p.name] *)
Definition path_name (p : Path) : string := List.last (parts p) "".

(** [p.parent] *)
Definition path_parent (p : Path) : Path :=
  mkPath (absolute p) (List.removelast (parts p)).

Global Instance Path_eq_dec : EqDecision Path.
Proof. solve_decision. Defined.

(** [s.lstrip("/")] *)
Fixpoint lstrip_slash (s : string) : string :=
  match s with
  | EmptyString => EmptyString
  | String c rest => if Ascii.eqb c slash then lstrip_slash rest else s
  end.

(** ** Collaborators *)

(** [os.DirEntry]: only its [path] attribute is read. *)
Record DirEntry : Type := mkDirEntry { de_path : Path }.

(** Modelled from the spec: the [PatternMatcher] class of
    [_therock_utils.pattern_match], which is not among the sources. An object
    holds the three pattern lists given to its constructor and the ordered
    mapping [all], from relative path to directory entry, in insertion
    order. Its methods [add_basedir] and [copy_to] are variables of the
    section [Tool]. *)
Record PatternMatcher : Type := mkPatternMatcher {
  pm_includes : list pyval;
  pm_excludes : list pyval;
  pm_force_includes : list pyval;
  pm_all : list (string * DirEntry)
}.

(** Modelled from the spec: the constructor
    [PatternMatcher(includes, excludes, force_includes)] of the same class,
    which keeps its arguments and starts with an empty mapping. *)
Definition PatternMatcher_new (incs excs fincs : list pyval) : PatternMatcher :=
  mkPatternMatcher incs excs fincs [].

(** A member of a tar archive: the name it is stored under and the file it
    was read from. *)
Record TarMember : Type := mkTarMember {
  arcname : string;
  source : Path
}.

(** The [tarfile.TarFile] object returned by [_open_archive]. *)
Record TarFile : Type := mkTarFile {
  tf_path : Path;
  tf_preset : Z;
  tf_members : list TarMember
}.

(** The [argparse] namespaces of the two commands. *)
Record ArtifactArgs : Type := mkArtifactArgs {
  arg_descriptor : Path;
  arg_component : string;
  arg_output_dir : Path;
  arg_root_dir : Path
}.

Record ArchiveArgs : Type := mkArchiveArgs {
  arg_artifact : list Path;
  arg_o : Path;
  arg_compression_level : Z;
  arg_hash_file : option Path;
  arg_hash_algorithm : string
}.

(** [_dup_list_or_str(v)]: [list(v)] copies a list, lists the keys of a
    dict, and raises on a value that is not iterable. *)
Definition _dup_list_or_str (v : pyval) : result (list pyval) :=
  if negb (truthy v) then Ok []
  else match v with
       | PStr _ => Ok [v]
       | PList vs => Ok vs
       | PDict kvs => Ok (List.map (fun kv => PStr (fst kv)) kvs)
       | _ => Raise TypeError
       end.

(** [ComponentDefaults.ALL.get(name, ComponentDefaults())]: the default
    operand is a fresh object without a name, never registered. *)
Definition defaults_for (reg : Registry) (name : string) : ComponentDefaults :=
  match registered reg name with
  | Some cd => cd
  | None => mkCD [] []
  end.

(** [descriptor["components"][component_name]] inside [try], with
    [except KeyError] giving the empty dict. Subscripting anything but a dict
    with a string raises [TypeError], which is not caught. *)
Definition component_record_of (descriptor : list (string * pyval))
    (component_name : string) : result pyval :=
  match dict_lookup descriptor "components" with
  | None => Ok (PDict [])
  | Some (PDict comps) =>
      match dict_lookup comps component_name with
      | Some v => Ok v
      | None => Ok (PDict [])
      end
  | Some _ => Raise TypeError
  end.

(** [v.items()] and [v.get]: only a dict has them. *)
Definition as_dict (v : pyval) : result (list (string * pyval)) :=
  match v with
  | PDict kvs => Ok kvs
  | _ => Raise AttributeError
  end.

Definition lift {S A} (r : result A) : M S A :=
  fun s => (r, s).

Section Tool.
(** The filesystem, and what the program asks of it. *)
Variable FS : Type.
(** [Path.exists()] *)
Variable path_exists : Path -> FS -> bool.
(** [Path.read_text()] *)
Variable read_text : Path -> FS -> result string.
(** [shutil.rmtree], [Path.unlink], [Path.mkdir(parents=True, exist_ok=True)],
    [Path.write_text] *)
Variable rmtree : Path -> M FS unit.
Variable unlink : Path -> M FS unit.
Variable mkdir_parents : Path -> M FS unit.
Variable write_text : Path -> string -> M FS unit.
(** [tomllib.load] on the opened file *)
Variable tomllib_load : Path -> FS -> result (list (string * pyval)).
(** [PatternMatcher.add_basedir] and [PatternMatcher.copy_to] with its
    [destdir], [destprefix] and [remove_dest] arguments *)
Variable add_basedir : Path -> PatternMatcher -> FS -> result PatternMatcher.
Variable copy_to : PatternMatcher -> Path -> string -> bool -> M FS unit.
(** [tarfile.TarFile.open(p, mode="x:xz", preset=level)] creating the file,
    and the close of the archive at the end of the [with] block *)
Variable tarfile_create : Path -> Z -> M FS unit.
Variable tarfile_close : TarFile -> M FS unit.
(** [os.path.abspath] *)
Variable abspath : Path -> Path.
(** What [TarFile.add] finds out about the file to add, through
    [gettarinfo] and, for a regular file, the opening of it for reading: an
    exception, [Ok false] for a file of a type that tar does not store
    ([gettarinfo] returns [None]), [Ok true] otherwise. *)
Variable tarfile_gettarinfo : Path -> FS -> result bool.
(** [calculate_hash] and [write_hash] *)
Variable calculate_hash : Path -> string -> FS -> result string.
Variable write_hash : Path -> string -> M FS unit.
(** [platform.system()], [str()] of a value that is not a string, and the
    registry left by the import of the module *)
Variable platform_system : string.
Variable str_other : pyval -> string.
Variable registry : Registry.

(** [load_toml_file(p)] *)
Definition load_toml_file (p : Path) : M FS (list (string * pyval)) :=
  fun fs => (tomllib_load p fs, fs).

(** One iteration of the loop over [component_record.items()], lines 191 to
    225. The result tells whether [basedir_relpath] was appended to
    [all_basedir_relpaths]. *)
Definition do_artifact_basedir (args : ArtifactArgs) (basedir_relpath : string)
    (basedir_record : pyval) : M FS bool :=
  (rec <- lift (as_dict basedir_record) ;;
   let use_default_patterns :=
     dict_get_default rec "default_patterns" (PBool true) in
   let basedir := joinpath (arg_root_dir args) basedir_relpath in
   let optional :=
     evaluate_optional platform_system str_other (dict_get rec "optional") in
   missing <- gets (fun fs => negb (path_exists basedir fs)) ;;
   if optional && missing then ret false
   else
     force_includes <- lift (_dup_list_or_str (dict_get rec "force_include")) ;;
     includes0 <- lift (_dup_list_or_str (dict_get rec "include")) ;;
     let includes1 :=
       if truthy use_default_patterns
       then includes0
            ++ List.map PStr (includes (defaults_for registry (arg_component args)))
       else includes0 in
     excludes0 <- lift (_dup_list_or_str (dict_get rec "exclude")) ;;
     let excludes1 :=
       if truthy use_default_patterns
       then excludes0
            ++ List.map PStr (excludes (defaults_for registry (arg_component args)))
       else excludes0 in
     let pm := PatternMatcher_new includes1 excludes1 force_includes in
     pm' <- (fun fs => (add_basedir basedir pm fs, fs)) ;;
     copy_to pm' (arg_output_dir args) (basedir_relpath +:+ "/") false ;;;
     ret true)%py.

(** The loop of lines 190 to 225, threading [all_basedir_relpaths]. *)
Fixpoint do_artifact_loop (args : ArtifactArgs)
    (items : list (string * pyval)) (all_basedir_relpaths : list string)
    : M FS (list string) :=
  match items with
  | [] => ret all_basedir_relpaths
  | (basedir_relpath, basedir_record) :: rest =>
      (kept <- do_artifact_basedir args basedir_relpath basedir_record ;;
       do_artifact_loop args rest
         (if kept : bool then all_basedir_relpaths ++ [basedir_relpath]
          else all_basedir_relpaths))%py
  end.

(** [manifest_path.write_text("\n".join(all_basedir_relpaths) + "\n")] *)
Definition manifest_text (all_basedir_relpaths : list string) : string :=
  join nl all_basedir_relpaths +:+ nl.

(** Lines 178 to 180: the output directory is removed when it exists, then
    created. *)
Definition recreate_output_dir (output_dir : Path) : M FS unit :=
  (present <- gets (path_exists output_dir) ;;
   (if present : bool then rmtree output_dir else ret tt) ;;;
   mkdir_parents output_dir)%py.

Definition do_artifact (args : ArtifactArgs) : M FS unit :=
  (loaded <- load_toml_file (arg_descriptor args) ;;
   let descriptor := match loaded with [] => [] | _ => loaded end in
   let component_name := arg_component args in
   let output_dir := arg_output_dir args in
   recreate_output_dir output_dir ;;;
   component_record <- lift (component_record_of descriptor component_name) ;;
   items <- lift (as_dict component_record) ;;
   all_basedir_relpaths <- do_artifact_loop args items [] ;;
   let manifest_path := joinpath output_dir "artifact_manifest.txt" in
   write_text manifest_path (manifest_text all_basedir_relpaths))%py.

(** *** do_artifact_archive

    The loops of the [with] block run on the archive object; the filesystem
    they read is the one left by the creation of the archive file. The
    members added are kept in the archive object and reach the archive file
    when it is closed: the buffered writes of [tarfile] are taken not to show
    in the filesystem before, so a manifest that is the archive file itself
    reads as the file did at its creation. *)

(** [arc.add(path, arcname=name, recursive=False)] on a POSIX system.
    [TarFile.add] returns without adding anything when the file is the
    archive itself, whose absolute path the archive object keeps as
    [self.name], and when [gettarinfo] returns [None]; the name of the member
    added, its [TarInfo.name], is the [arcname] without its leading slashes. *)
Definition arc_add (fs : FS) (path : Path) (name : string) : M TarFile unit :=
  fun arc =>
    if bool_decide (abspath path = abspath (tf_path arc)) then (Ok tt, arc)
    else
      match tarfile_gettarinfo path fs with
      | Raise e => (Raise e, arc)
      | Ok false => (Ok tt, arc)
      | Ok true =>
          (Ok tt,
           mkTarFile (tf_path arc) (tf_preset arc)
             (tf_members arc ++ [mkTarMember (lstrip_slash name) path]))
      end.

(** [for subpath, dir_entry in pm.all.items()], lines 252 to 254 *)
Fixpoint archive_entries (fs : FS) (relpath : string)
    (entries : list (string * DirEntry)) : M TarFile unit :=
  match entries with
  | [] => ret tt
  | (subpath, dir_entry) :: rest =>
      (let fullpath := relpath +:+ "/" +:+ subpath in
       arc_add fs (de_path dir_entry) fullpath ;;;
       archive_entries fs relpath rest)%py
  end.

(** One iteration of [for relpath in relpaths], lines 245 to 254 *)
Definition archive_relpath (fs : FS) (artifact_path : Path) (relpath : string)
    : M TarFile unit :=
  if String.eqb relpath "" then ret tt
  else
    let source_dir := joinpath artifact_path relpath in
    if negb (path_exists source_dir fs) then ret tt
    else
      (let pm := PatternMatcher_new [] [] [] in
       pm' <- lift (add_basedir source_dir pm fs) ;;
       archive_entries fs relpath (pm_all pm'))%py.

Fixpoint archive_relpaths (fs : FS) (artifact_path : Path)
    (relpaths : list string) : M TarFile unit :=
  match relpaths with
  | [] => ret tt
  | relpath :: rest =>
      (archive_relpath fs artifact_path relpath ;;;
       archive_relpaths fs artifact_path rest)%py
  end.

(** One iteration of [for artifact_path in args.artifact], lines 240 to 254 *)
Definition archive_artifact (fs : FS) (artifact_path : Path) : M TarFile unit :=
  (let manifest_path := joinpath artifact_path "artifact_manifest.txt" in
   text <- lift (read_text manifest_path fs) ;;
   let relpaths := splitlines text in
   arc_add fs manifest_path (path_name manifest_path) ;;;
   archive_relpaths fs artifact_path relpaths)%py.

Fixpoint archive_artifacts (fs : FS) (artifacts : list Path) : M TarFile unit :=
  match artifacts with
  | [] => ret tt
  | artifact_path :: rest =>
      (archive_artifact fs artifact_path ;;;
       archive_artifacts fs rest)%py
  end.

(** [_open_archive(p, compression_level)] *)
Definition _open_archive (p : Path) (compression_level : Z) : M FS TarFile :=
  (tarfile_create p compression_level ;;;
   ret (mkTarFile p compression_level []))%py.

(** The result is the archive object as it was closed. *)
Definition do_artifact_archive (args : ArchiveArgs) : M FS TarFile :=
  (let output_path := arg_o args in
   present <- gets (path_exists output_path) ;;
   (if present : bool then unlink output_path else ret tt) ;;;
   mkdir_parents (path_parent output_path) ;;;
   arc0 <- _open_archive output_path (arg_compression_level args) ;;
   fs <- gets (fun fs => fs) ;;
   let (outcome, arc) := archive_artifacts fs (arg_artifact args) arc0 in
   tarfile_close arc ;;;
   lift outcome ;;;
   match arg_hash_file args with
   | Some hash_file =>
       digest <- (fun fs' =>
                    (calculate_hash output_path (arg_hash_algorithm args) fs', fs')) ;;
       write_hash hash_file digest
   | None => ret tt
   end ;;;
   ret arc)%py.

End Tool.

(** ** The layout of an archive

    What the statements about [do_artifact_archive] compare the code with:
    the members an archive is expected to hold, written as list expressions
    instead of loops. *)

(** The member that stores one item of [pm.all] under the manifest line
    [relpath], when the line does not start with a slash. *)
Definition member_of (relpath : string) (entry : string * DirEntry) : TarMember :=
  mkTarMember (relpath +:+ "/" +:+ fst entry) (de_path (snd entry)).

(** The member that stores the manifest of an artifact directory. *)
Definition manifest_member (artifact_path : Path) : TarMember :=
  mkTarMember "artifact_manifest.txt"
    (joinpath artifact_path "artifact_manifest.txt").

Definition add_members (arc : TarFile) (ms : list TarMember) : TarFile :=
  mkTarFile (tf_path arc) (tf_preset arc) (tf_members arc ++ ms).

Section Layout.
Variable FS : Type.
Variable path_exists : Path -> FS -> bool.
Variable read_text : Path -> FS -> result string.
Variable add_basedir : Path -> PatternMatcher -> FS -> result PatternMatcher.
Variable abspath : Path -> Path.
Variable tarfile_gettarinfo : Path -> FS -> result bool.

(** Whether [TarFile.add] passes a file over without raising: the file is
    the archive at [arc_path] itself, or of a type that tar does not store. *)
Definition passed_over (fs : FS) (arc_path path : Path) : bool :=
  bool_decide (abspath path = abspath arc_path)
  || match tarfile_gettarinfo path fs with Ok false => true | _ => false end.

(** What the archive at [arc_path] gains when [path] is added under [name]
    and the addition does not raise: nothing for a file passed over, else one
    member, named [name] without its leading slashes. *)
Definition stored (fs : FS) (arc_path path : Path) (name : string)
    : list TarMember :=
  if bool_decide (abspath path = abspath arc_path) then []
  else
    match tarfile_gettarinfo path fs with
    | Ok true => [mkTarMember (lstrip_slash name) path]
    | _ => []
    end.

(** What a scan of [artifact_path / relpath] by a new [PatternMatcher]
    records, in its order; nothing when the scan raises. *)
Definition scanned (fs : FS) (artifact_path : Path) (relpath : string)
    : list (string * DirEntry) :=
  match add_basedir (joinpath artifact_path relpath)
          (PatternMatcher_new [] [] []) fs with
  | Ok pm => pm_all pm
  | Raise _ => []
  end.

(** The members expected for one item of a scan and for one manifest line. *)
Definition stored_entry (fs : FS) (arc_path : Path) (relpath : string)
    (entry : string * DirEntry) : list TarMember :=
  stored fs arc_path (de_path (snd entry)) (relpath +:+ "/" +:+ fst entry).

Definition payload_of (fs : FS) (arc_path artifact_path : Path)
    (relpath : string) : list TarMember :=
  if String.eqb relpath "" then []
  else if negb (path_exists (joinpath artifact_path relpath) fs) then []
  else flat_map (stored_entry fs arc_path relpath)
         (scanned fs artifact_path relpath).

(** The lines of an artifact's manifest; none when it cannot be read. *)
Definition manifest_lines (fs : FS) (artifact_path : Path) : list string :=
  match read_text (joinpath artifact_path "artifact_manifest.txt") fs with
  | Ok text => splitlines text
  | Raise _ => []
  end.

(** The members expected for the manifest of an artifact directory, for its
    payload, and for a list of artifact directories. *)
Definition stored_manifest (fs : FS) (arc_path artifact_path : Path)
    : list TarMember :=
  stored fs arc_path (joinpath artifact_path "artifact_manifest.txt")
    "artifact_manifest.txt".

Definition artifact_payload (fs : FS) (arc_path artifact_path : Path)
    : list TarMember :=
  flat_map (payload_of fs arc_path artifact_path)
    (manifest_lines fs artifact_path).

Definition archive_layout (fs : FS) (arc_path : Path) (artifacts : list Path)
    : list TarMember :=
  flat_map
    (fun a => stored_manifest fs arc_path a ++ artifact_payload fs arc_path a)
    artifacts.

(** Two filesystems answer alike every question the archive loop asks about
    one artifact directory. *)
Definition same_answers (fs1 fs2 : FS) (artifact_path : Path) : Prop :=
  let manifest_path := joinpath artifact_path "artifact_manifest.txt" in
  read_text manifest_path fs1 = read_text manifest_path fs2
  /\ tarfile_gettarinfo manifest_path fs1 = tarfile_gettarinfo manifest_path fs2
  /\ forall relpath,
       In relpath (manifest_lines fs1 artifact_path) ->
       let source_dir := joinpath artifact_path relpath in
       path_exists source_dir fs1 = path_exists source_dir fs2
       /\ add_basedir source_dir (PatternMatcher_new [] [] []) fs1
          = add_basedir source_dir (PatternMatcher_new [] [] []) fs2
       /\ forall entry,
            In entry (scanned fs1 artifact_path relpath) ->
            tarfile_gettarinfo (de_path (snd entry)) fs1
            = tarfile_gettarinfo (de_path (snd entry)) fs2.
End Layout.

(** Lines 199 to 219 of [do_artifact] taken alone: the [PatternMatcher] built
    for one base-directory record, or the exception of the first
    [_dup_list_or_str] that raises. *)
Definition matcher_of (registry : Registry) (component_name : string)
    (rec : list (string * pyval)) : result PatternMatcher :=
  let use_default_patterns :=
    dict_get_default rec "default_patterns" (PBool true) in
  match _dup_list_or_str (dict_get rec "force_include") with
  | Raise e => Raise e
  | Ok force_includes =>
      match _dup_list_or_str (dict_get rec "include") with
      | Raise e => Raise e
      | Ok includes0 =>
          match _dup_list_or_str (dict_get rec "exclude") with
          | Raise e => Raise e
          | Ok excludes0 =>
              Ok (PatternMatcher_new
                    (if truthy use_default_patterns
                     then includes0
                          ++ List.map PStr
                               (includes (defaults_for registry component_name))
                     else includes0)
                    (if truthy use_default_patterns
                     then excludes0
                          ++ List.map PStr
                               (excludes (defaults_for registry component_name))
                     else excludes0)
                    force_includes)
          end
      end
  end.

(** ** The composition of an artifact

    The loop of [do_artifact] as the specification words it, section 4.3,
    step 3: from a filesystem, the entries of a component's record are gone
    through in order; an entry that is optional with a missing base directory
    changes nothing and is not listed; any other entry has its matcher built,
    its base directory scanned and the matches copied into the output
    directory under its path, and is listed. *)

Section Composition.
Variable FS : Type.
Variable path_exists : Path -> FS -> bool.
Variable add_basedir : Path -> PatternMatcher -> FS -> result PatternMatcher.
Variable copy_to : PatternMatcher -> Path -> string -> bool -> M FS unit.
Variable platform_system : string.
Variable str_other : pyval -> string.
Variable registry : Registry.
Variable args : ArtifactArgs.

Inductive Composes : list (string * pyval) -> FS -> list string -> FS -> Prop :=
| Composes_done (fs : FS) : Composes [] fs [] fs
| Composes_skip (k : string) (rec rest : list (string * pyval)) (fs fs' : FS)
    (rel : list string) :
    evaluate_optional platform_system str_other (dict_get rec "optional") = true ->
    path_exists (joinpath (arg_root_dir args) k) fs = false ->
    Composes rest fs rel fs' ->
    Composes ((k, PDict rec) :: rest) fs rel fs'
| Composes_copy (k : string) (rec rest : list (string * pyval))
    (fs fs1 fs' : FS) (pm pm' : PatternMatcher) (rel : list string) :
    evaluate_optional platform_system str_other (dict_get rec "optional")
    && negb (path_exists (joinpath (arg_root_dir args) k) fs) = false ->
    matcher_of registry (arg_component args) rec = Ok pm ->
    add_basedir (joinpath (arg_root_dir args) k) pm fs = Ok pm' ->
    copy_to pm' (arg_output_dir args) (k +:+ "/") false fs = (Ok tt, fs1) ->
    Composes rest fs1 rel fs' ->
    Composes ((k, PDict rec) :: rest) fs (k :: rel) fs'.
End Composition.

(** Whether a string has a [/] in it. *)
Fixpoint has_slash (s : string) : bool :=
  match s with
  | EmptyString => false
  | String c rest => Ascii.eqb c slash || has_slash rest
  end.

(** ** A small filesystem

    A concrete filesystem on which the program can be run: the regular files,
    each with its content, in the order in which a directory scan meets them.
    A directory exists when a file lies under it. Its [PatternMatcher] records
    every file under the base directory and copies all of them. *)

Module Toy.

Definition FS : Type := list (Path * string).

Definition under (dir p : Path) : bool :=
  bool_decide (absolute dir = absolute p)
  && bool_decide (take (length (parts dir)) (parts p) = parts dir).

Definition path_exists (p : Path) (fs : FS) : bool :=
  existsb (fun f => under p (fst f)) fs.

Definition read_text (p : Path) (fs : FS) : result string :=
  match List.find (fun f => bool_decide (fst f = p)) fs with
  | Some f => Ok (snd f)
  | None => Raise (OSError "FileNotFoundError")
  end.

Definition put (p : Path) (text : string) (fs : FS) : FS :=
  if existsb (fun f => bool_decide (fst f = p)) fs
  then List.map (fun f => if bool_decide (fst f = p) then (p, text) else f) fs
  else fs ++ [(p, text)].

Definition rmtree (p : Path) : M FS unit :=
  modify (List.filter (fun f => negb (under p (fst f)))).

Definition unlink (p : Path) : M FS unit :=
  modify (List.filter (fun f => negb (bool_decide (fst f = p)))).

Definition mkdir_parents (p : Path) : M FS unit := ret tt.

Definition write_text (p : Path) (text : string) : M FS unit :=
  modify (put p text).

Definition tomllib_load (descriptor : list (string * pyval)) (p : Path)
    (fs : FS) : result (list (string * pyval)) :=
  Ok descriptor.

Definition scan (dir : Path) (fs : FS) : list (string * DirEntry) :=
  flat_map
    (fun f =>
       if under dir (fst f) && negb (bool_decide (fst f = dir))
       then [(join "/" (drop (length (parts dir)) (parts (fst f))),
              mkDirEntry (fst f))]
       else [])
    fs.

Definition add_basedir (dir : Path) (pm : PatternMatcher) (fs : FS)
    : result PatternMatcher :=
  if path_exists dir fs
  then Ok (mkPatternMatcher (pm_includes pm) (pm_excludes pm)
             (pm_force_includes pm) (pm_all pm ++ scan dir fs))
  else Raise (OSError "FileNotFoundError").

Definition copy_to (pm : PatternMatcher) (destdir : Path) (destprefix : string)
    (remove_dest : bool) : M FS unit :=
  modify (fun fs =>
    fold_left
      (fun acc entry =>
         match read_text (de_path (snd entry)) fs with
         | Ok text => put (joinpath destdir (destprefix +:+ fst entry)) text acc
         | Raise _ => acc
         end)
      (pm_all pm) fs).

Definition tarfile_create (p : Path) (preset : Z) : M FS unit :=
  fun fs =>
    if path_exists p fs then (Raise (OSError "FileExistsError"), fs)
    else (Ok tt, fs ++ [(p, "")]).

(** Relative paths are taken from the working directory [/work]. *)
Definition abspath (p : Path) : Path :=
  if absolute p then p else mkPath true ("work" :: parts p).

Definition tarfile_gettarinfo (p : Path) (fs : FS) : result bool :=
  if path_exists p fs then Ok true else Raise (OSError "FileNotFoundError").

Definition tarfile_close (arc : TarFile) : M FS unit :=
  write_text (tf_path arc) (join nl (List.map arcname (tf_members arc))).

Definition calculate_hash (p : Path) (algorithm : string) (fs : FS)
    : result string :=
  read_text p fs.

Definition write_hash (p : Path) (digest : string) : M FS unit :=
  write_text p digest.

Definition str_other (v : pyval) : string :=
  match v with
  | PNone => "None"
  | PBool true => "True"
  | PBool false => "False"
  | POpaque _ shown => shown
  | _ => ""
  end.

(** [do_artifact] and [do_artifact_archive] on this filesystem, with the
    registry the module leaves after import. *)
Definition run_artifact (platform_system : string)
    (descriptor : list (string * pyval)) : ArtifactArgs -> M FS unit :=
  do_artifact FS path_exists rmtree mkdir_parents write_text
    (tomllib_load descriptor) add_basedir copy_to platform_system str_other
    builtin_registry.

Definition run_archive : ArchiveArgs -> M FS TarFile :=
  do_artifact_archive FS path_exists read_text unlink mkdir_parents add_basedir
    tarfile_create tarfile_close abspath tarfile_gettarinfo calculate_hash
    write_hash.

(** A descriptor with one required and one optional base directory for the
    [lib] component, and a build tree that only has the first. *)
Definition descriptor : list (string * pyval) :=
  [("components",
    PDict [("lib",
            PDict [("stage/core", PDict []);
                   ("stage/extra", PDict [("optional", PStr "linux")])])])].

Definition build_tree : FS :=
  [(Path_of "build/stage/core/lib/libb.so", "b");
   (Path_of "build/stage/core/lib/liba.so", "a")].

Definition artifact_args : ArtifactArgs :=
  mkArtifactArgs (Path_of "artifact.toml") "lib" (Path_of "out/lib")
    (Path_of "build").

(** Two artifact directories, and the same two with the files of the first
    met in another order by a scan. *)
Definition artifacts_fs : FS :=
  [(Path_of "out/lib/artifact_manifest.txt", "stage/core" +:+ nl);
   (Path_of "out/lib/stage/core/lib/libb.so", "b");
   (Path_of "out/lib/stage/core/lib/liba.so", "a");
   (Path_of "out/doc/artifact_manifest.txt", nl)].

Definition artifacts_fs_reordered : FS :=
  [(Path_of "out/lib/artifact_manifest.txt", "stage/core" +:+ nl);
   (Path_of "out/lib/stage/core/lib/liba.so", "a");
   (Path_of "out/lib/stage/core/lib/libb.so", "b");
   (Path_of "out/doc/artifact_manifest.txt", nl)].

Definition archive_args : ArchiveArgs :=
  mkArchiveArgs [Path_of "out/lib"; Path_of "out/doc"]
    (Path_of "dist/lib.tar.xz") 6 (Some (Path_of "dist/lib.tar.xz.sha256"))
    "sha256".

(** The same command with the archive written over the manifest of the first
    artifact directory, the first artifact directory archived alone in that
    way, and the archive written inside a directory that its manifest lists. *)
Definition archive_over_manifest : ArchiveArgs :=
  mkArchiveArgs [Path_of "out/lib"; Path_of "out/doc"]
    (Path_of "out/lib/artifact_manifest.txt") 6 None "sha256".

Definition archive_onto_manifest : ArchiveArgs :=
  mkArchiveArgs [Path_of "out/lib"]
    (Path_of "out/lib/artifact_manifest.txt") 6 None "sha256".

Definition archive_inside_payload : ArchiveArgs :=
  mkArchiveArgs [Path_of "out/lib"]
    (Path_of "out/lib/stage/core/lib.tar.xz") 6 None "sha256".

End Toy.

(** ** The rest of the tool *)

(** Whether a string holds one of the characters at which [splitlines]
    breaks. *)
Fixpoint has_linebreak (s : string) : bool :=
  match s with
  | EmptyString => false
  | String c rest => is_linebreak c || has_linebreak rest
  end.

(** Every name of [ALL] leads to an object of the heap, two names never lead
    to the same object, and the empty name is not a key. *)
Definition registry_wf (st : Registry) : Prop :=
  (forall name obj, ALL st !! name = Some obj -> obj < length (heap st))
  /\ (forall n1 n2 obj,
        ALL st !! n1 = Some obj -> ALL st !! n2 = Some obj -> n1 = n2)
  /\ ALL st !! "" = None.

(** From [st] to [st']: every name keeps its object, and every object keeps
    its [includes] and the [excludes] it had as a prefix of those it has. *)
Definition registry_grows (st st' : Registry) : Prop :=
  (forall name obj, ALL st !! name = Some obj -> ALL st' !! name = Some obj)
  /\ (forall obj cd,
        heap st !! obj = Some cd ->
        exists cd',
          heap st' !! obj = Some cd'
          /\ includes cd' = includes cd
          /\ exists more, excludes cd' = excludes cd ++ more).

(** *** _do_artifact_flatten *)

Record FlattenArgs : Type := mkFlattenArgs {
  flat_artifact : list Path;
  flat_o : Path;
  flat_verbose : bool
}.

Section Flatten.
Variable FS : Type.
(** [ArtifactPopulator(output_path, verbose, flatten=True)] called on the
    artifact directories; the result is its [relpaths] attribute as [list]
    enumerates it. *)
Variable populate_flat : Path -> bool -> list Path -> M FS (list string).

(** [relpaths.sort()] orders strings by code point; the result is the lines
    printed, in order. *)
Definition _do_artifact_flatten (args : FlattenArgs) : M FS (list string) :=
  (relpaths <- populate_flat (flat_o args) (flat_verbose args)
                 (flat_artifact args) ;;
   let relpaths := merge_sort String.le relpaths in
   ret relpaths)%py.
End Flatten.

(** *** A record of the calls

    Any filesystem can be paired with the list of the mutating calls made on
    it, oldest first. Running the tool on the pair tells which calls it makes
    and in which order. *)

Inductive Event : Type :=
| EvRmtree (p : Path)
| EvUnlink (p : Path)
| EvMkdir (p : Path)
| EvCopy (pm : PatternMatcher) (destdir : Path) (destprefix : string)
    (remove_dest : bool)
| EvWriteText (p : Path) (text : string)
| EvCreate (p : Path) (preset : Z)
| EvClose (arc : TarFile)
| EvWriteHash (p : Path) (digest : string).

(** The [write_text] calls, the targets of the [copy_to] calls, the archives
    closed and the [write_hash] calls of a record. *)
Definition text_writes (log : list Event) : list (Path * string) :=
  flat_map (fun ev => match ev with EvWriteText p t => [(p, t)] | _ => [] end)
    log.

Definition copy_targets (log : list Event) : list (Path * string * bool) :=
  flat_map
    (fun ev => match ev with EvCopy _ d pre rm => [(d, pre, rm)] | _ => [] end)
    log.

Definition closes (log : list Event) : list TarFile :=
  flat_map (fun ev => match ev with EvClose arc => [arc] | _ => [] end) log.

Definition hash_writes (log : list Event) : list (Path * string) :=
  flat_map (fun ev => match ev with EvWriteHash p d => [(p, d)] | _ => [] end)
    log.

Section Traced.
Variable FS : Type.
Variable path_exists : Path -> FS -> bool.
Variable read_text : Path -> FS -> result string.
Variable rmtree : Path -> M FS unit.
Variable unlink : Path -> M FS unit.
Variable mkdir_parents : Path -> M FS unit.
Variable write_text : Path -> string -> M FS unit.
Variable tomllib_load : Path -> FS -> result (list (string * pyval)).
Variable add_basedir : Path -> PatternMatcher -> FS -> result PatternMatcher.
Variable copy_to : PatternMatcher -> Path -> string -> bool -> M FS unit.
Variable tarfile_create : Path -> Z -> M FS unit.
Variable tarfile_close : TarFile -> M FS unit.
Variable abspath : Path -> Path.
Variable tarfile_gettarinfo : Path -> FS -> result bool.
Variable calculate_hash : Path -> string -> FS -> result string.
Variable write_hash : Path -> string -> M FS unit.
Variable platform_system : string.
Variable str_other : pyval -> string.
Variable registry : Registry.

(** The call is recorded, then made. *)
Definition recorded {A} (ev : Event) (m : M FS A) : M (FS * list Event) A :=
  fun st =>
    let (r, fs') := m (fst st) in
    (r, (fs', snd st ++ [ev])).

Definition traced_do_artifact : ArtifactArgs -> M (FS * list Event) unit :=
  do_artifact (FS * list Event)
    (fun p st => path_exists p (fst st))
    (fun p => recorded (EvRmtree p) (rmtree p))
    (fun p => recorded (EvMkdir p) (mkdir_parents p))
    (fun p text => recorded (EvWriteText p text) (write_text p text))
    (fun p st => tomllib_load p (fst st))
    (fun p pm st => add_basedir p pm (fst st))
    (fun pm d pre rm => recorded (EvCopy pm d pre rm) (copy_to pm d pre rm))
    platform_system str_other registry.

Definition traced_do_artifact_archive
    : ArchiveArgs -> M (FS * list Event) TarFile :=
  do_artifact_archive (FS * list Event)
    (fun p st => path_exists p (fst st))
    (fun p st => read_text p (fst st))
    (fun p => recorded (EvUnlink p) (unlink p))
    (fun p => recorded (EvMkdir p) (mkdir_parents p))
    (fun p pm st => add_basedir p pm (fst st))
    (fun p preset => recorded (EvCreate p preset) (tarfile_create p preset))
    (fun arc => recorded (EvClose arc) (tarfile_close arc))
    abspath
    (fun p st => tarfile_gettarinfo p (fst st))
    (fun p alg st => calculate_hash p alg (fst st))
    (fun p digest => recorded (EvWriteHash p digest) (write_hash p digest)).
End Traced.

(** * Properties *)

(** ** evaluate_optional *)

Lemma evaluate_optional_loop_true platform_system str_other vs :
  evaluate_optional_loop str_other (lower platform_system) vs = true <->
  exists v, In v vs /\ lower (py_str str_other v) = lower platform_system.
Proof.
  induction vs as [|v vs IH]; simpl.
  - split; [discriminate | intros (v & [] & _)].
  - destruct (String.eqb_spec (lower (py_str str_other v)) (lower platform_system)) as [E|E].
    + split; [intros _; exists v; auto | reflexivity].
    + rewrite IH. split.
      * intros (w & Hw & Ew). exists w. auto.
      * intros (w & [->|Hw] & Ew); [contradiction | exists w; auto].
Qed.




(** ** The registry *)

Lemma init_registered name incs excs st :
  name <> "" -> is_Some (ALL st !! name) ->
  ComponentDefaults__init__ name incs excs st =
    (Raise (KeyError ("ComponentDefaults " +:+ name +:+ " already defined")),
     mkRegistry (heap st ++ [mkCD incs excs]) (ALL st)).
Proof.
  intros Hne [obj Hobj]. unfold ComponentDefaults__init__.
  destruct (String.eqb_spec name "") as [->|_]; [contradiction|].
  simpl. rewrite Hobj. reflexivity.
Qed.

Lemma init_fresh name incs excs st :
  name <> "" -> ALL st !! name = None ->
  ComponentDefaults__init__ name incs excs st =
    (Ok (length (heap st)),
     mkRegistry (heap st ++ [mkCD incs excs])
       (<[name := length (heap st)]> (ALL st))).
Proof.
  intros Hne Hnone. unfold ComponentDefaults__init__.
  destruct (String.eqb_spec name "") as [->|_]; [contradiction|].
  simpl. rewrite Hnone. reflexivity.
Qed.

Lemma init_unnamed incs excs st :
  ComponentDefaults__init__ "" incs excs st =
    (Ok (length (heap st)), mkRegistry (heap st ++ [mkCD incs excs]) (ALL st)).
Proof. reflexivity. Qed.

Lemma registered_fresh name cd hp (all : gmap string nat) :
  registered (mkRegistry (hp ++ [cd]) (<[name := length hp]> all)) name = Some cd.
Proof.
  unfold registered. simpl. rewrite lookup_insert_eq. simpl.
  rewrite lookup_app_r by lia. rewrite Nat.sub_diag. reflexivity.
Qed.

(** C8. Constructing a [ComponentDefaults] under a non-empty name that is a
    key of [ALL] raises [KeyError] and leaves [ALL] and every object as they
    were. Under a non-empty name that is not a key the construction succeeds
    and records the new object under the name; any later construction under
    that name raises, and the name still leads to the first object. *)
Theorem ComponentDefaults_init_once (name : string) (incs excs : list string)
    (st : Registry) :
  name <> "" ->
  (is_Some (ALL st !! name) ->
     let (r, st') := ComponentDefaults__init__ name incs excs st in
     (exists msg, r = Raise (KeyError msg))
     /\ ALL st' = ALL st
     /\ (forall obj cd, heap st !! obj = Some cd -> heap st' !! obj = Some cd))
  /\ (ALL st !! name = None ->
     let (r, st') := ComponentDefaults__init__ name incs excs st in
     r = Ok (length (heap st))
     /\ ALL st' = <[name := length (heap st)]> (ALL st)
     /\ registered st' name = Some (mkCD incs excs)
     /\ forall incs2 excs2,
          let (r2, st2) := ComponentDefaults__init__ name incs2 excs2 st' in
          (exists msg, r2 = Raise (KeyError msg))
          /\ registered st2 name = Some (mkCD incs excs)).
Proof.
  intros Hne. split.
  - intros Hsome. rewrite init_registered by assumption.
    split; [eauto|]. split; [reflexivity|].
    intros obj cd Hobj. simpl. apply lookup_app_l_Some. exact Hobj.
  - intros Hnone. rewrite init_fresh by assumption.
    split; [reflexivity|]. split; [reflexivity|].
    split; [apply registered_fresh|].
    intros incs2 excs2. rewrite init_registered.
    + split; [eauto|]. unfold registered. simpl. rewrite lookup_insert_eq. simpl.
      rewrite <- app_assoc. rewrite lookup_app_r by lia.
      rewrite Nat.sub_diag. reflexivity.
    + assumption.
    + simpl. rewrite lookup_insert_eq. eauto.
Qed.

(** The built-in registry already has ["dev"]: constructing it again raises,
    whereas ["test"] can still be constructed once. *)
Lemma ComponentDefaults_init_once_witness :
  (exists msg,
     fst (ComponentDefaults__init__ "dev" ["**/*.h"] [] builtin_registry)
     = Raise (KeyError msg))
  /\ fst (ComponentDefaults__init__ "test" [] [] builtin_registry) = Ok 5.
Proof.
  assert (Hne1 : "dev" <> "") by discriminate.
  assert (Hne2 : "test" <> "") by discriminate.
  pose proof (ComponentDefaults_init_once "dev" ["**/*.h"] [] builtin_registry Hne1)
    as [H1 _].
  pose proof (ComponentDefaults_init_once "test" [] [] builtin_registry Hne2)
    as [_ H2].
  split.
  - assert (Hs : is_Some (ALL builtin_registry !! "dev"))
      by (vm_compute; eauto).
    specialize (H1 Hs).
    destruct (ComponentDefaults__init__ "dev" ["**/*.h"] [] builtin_registry).
    apply H1.
  - assert (Hn : ALL builtin_registry !! "test" = None) by (vm_compute; reflexivity).
    specialize (H2 Hn).
    destruct (ComponentDefaults__init__ "test" [] [] builtin_registry).
    apply H2.
Defined.

(** C9, as the claim states it, fails at the empty name: [get("")] on a
    registry without that key registers nothing, and constructing a
    [ComponentDefaults] under the empty name afterwards succeeds. *)
Lemma ComponentDefaults_get_empty_name_not_registered :
  ALL builtin_registry !! "" = None
  /\ ALL (snd (ComponentDefaults_get "" builtin_registry)) = ALL builtin_registry
  /\ is_ok (fst (ComponentDefaults__init__ "" [] []
                   (snd (ComponentDefaults_get "" builtin_registry)))) = true.
Proof. split; [vm_compute; reflexivity|]. split; reflexivity. Qed.

(** C9, amended. For a non-empty name that is not a key of [ALL],
    [ComponentDefaults.get] constructs an object with empty lists, records it
    under the name and returns it, so a later construction under that name
    raises. For a name that is a key, [get] returns the recorded object and
    changes nothing. *)
Theorem ComponentDefaults_get_registers (name : string) (st : Registry) :
  (name <> "" -> ALL st !! name = None ->
     let (r, st') := ComponentDefaults_get name st in
     r = Ok (length (heap st))
     /\ ALL st' = <[name := length (heap st)]> (ALL st)
     /\ registered st' name = Some (mkCD [] [])
     /\ forall incs excs,
          exists msg,
            fst (ComponentDefaults__init__ name incs excs st')
            = Raise (KeyError msg))
  /\ (forall obj, ALL st !! name = Some obj ->
        ComponentDefaults_get name st = (Ok obj, st)).
Proof.
  split.
  - intros Hne Hnone. unfold ComponentDefaults_get. rewrite Hnone.
    rewrite init_fresh by assumption.
    split; [reflexivity|]. split; [reflexivity|].
    split; [apply registered_fresh|].
    intros incs excs. rewrite init_registered; [simpl; eauto | assumption |].
    simpl. rewrite lookup_insert_eq. eauto.
  - intros obj Hobj. unfold ComponentDefaults_get. rewrite Hobj. reflexivity.
Qed.

(** ["test"] is not a built-in component: [get] registers it. ["lib"] is one:
    [get] leaves the registry as it is. *)
Lemma ComponentDefaults_get_registers_witness :
  registered (snd (ComponentDefaults_get "test" builtin_registry)) "test"
  = Some (mkCD [] [])
  /\ snd (ComponentDefaults_get "lib" builtin_registry) = builtin_registry.
Proof.
  split.
  - pose proof (ComponentDefaults_get_registers "test" builtin_registry) as [H _].
    assert (Hne : "test" <> "") by discriminate.
    assert (Hn : ALL builtin_registry !! "test" = None) by (vm_compute; reflexivity).
    specialize (H Hne Hn).
    destruct (ComponentDefaults_get "test" builtin_registry). apply H.
  - pose proof (ComponentDefaults_get_registers "lib" builtin_registry) as [_ H].
    rewrite (H 2); [reflexivity | vm_compute; reflexivity].
Defined.

(** C2. The module-level statements run without raising, and in the registry
    they leave, each of [dev], [lib] and [run] excludes every pattern that the
    other two and [doc] include. *)
Theorem builtin_registry_cross_layering :
  fst (module_init empty_registry) = Ok tt
  /\ exists dev lib run doc,
       registered builtin_registry "dev" = Some dev
       /\ registered builtin_registry "lib" = Some lib
       /\ registered builtin_registry "run" = Some run
       /\ registered builtin_registry "doc" = Some doc
       /\ (forall p, In p (includes lib ++ includes run ++ includes doc) ->
                     In p (excludes dev))
       /\ (forall p, In p (includes dev ++ includes run ++ includes doc) ->
                     In p (excludes lib))
       /\ (forall p, In p (includes dev ++ includes lib ++ includes doc) ->
                     In p (excludes run)).
Proof.
  split; [vm_compute; reflexivity|].
  eexists _, _, _, _.
  split; [vm_compute; reflexivity|].
  split; [vm_compute; reflexivity|].
  split; [vm_compute; reflexivity|].
  split; [vm_compute; reflexivity|].
  simpl. repeat split; intros p Hp; simpl in Hp; intuition (subst; simpl; auto 20).
Qed.

(** ** do_artifact *)

Lemma or_empty_dict (loaded : list (string * pyval)) :
  match loaded with [] => [] | _ => loaded end = loaded.
Proof. destruct loaded; reflexivity. Qed.

Section ArtifactProps.
Variable FS : Type.
Variable path_exists : Path -> FS -> bool.
Variable rmtree : Path -> M FS unit.
Variable mkdir_parents : Path -> M FS unit.
Variable write_text : Path -> string -> M FS unit.
Variable tomllib_load : Path -> FS -> result (list (string * pyval)).
Variable add_basedir : Path -> PatternMatcher -> FS -> result PatternMatcher.
Variable copy_to : PatternMatcher -> Path -> string -> bool -> M FS unit.
Variable platform_system : string.
Variable str_other : pyval -> string.
Variable registry : Registry.

Local Abbreviation is_optional rec :=
  (evaluate_optional platform_system str_other (dict_get rec "optional")).
Local Abbreviation basedir_step :=
  (do_artifact_basedir FS path_exists add_basedir copy_to platform_system
     str_other registry).
Local Abbreviation loop :=
  (do_artifact_loop FS path_exists add_basedir copy_to platform_system
     str_other registry).
Local Abbreviation recreate :=
  (recreate_output_dir FS path_exists rmtree mkdir_parents).
Local Abbreviation run :=
  (do_artifact FS path_exists rmtree mkdir_parents write_text tomllib_load
     add_basedir copy_to platform_system str_other registry).

Lemma loop_app args xs ys acc fs :
  loop args (xs ++ ys) acc fs =
  match loop args xs acc fs with
  | (Ok acc', fs') => loop args ys acc' fs'
  | (Raise e, fs') => (Raise e, fs')
  end.
Proof.
  revert acc fs. induction xs as [|[k r] xs IH]; intros acc fs; simpl.
  - reflexivity.
  - unfold bind. destruct (basedir_step args k r fs) as [[kept|e] fs1].
    + apply IH.
    + reflexivity.
Qed.

Lemma basedir_skipped args k rec fs :
  is_optional rec = true ->
  path_exists (joinpath (arg_root_dir args) k) fs = false ->
  basedir_step args k (PDict rec) fs = (Ok false, fs).
Proof.
  intros Hopt Hmiss. unfold do_artifact_basedir, bind, lift, gets. simpl.
  rewrite Hopt, Hmiss. reflexivity.
Qed.

Lemma basedir_outcome args k r fs kept fs' :
  basedir_step args k r fs = (Ok kept, fs') ->
  exists rec,
    r = PDict rec
    /\ kept = negb (is_optional rec
                    && negb (path_exists (joinpath (arg_root_dir args) k) fs))
    /\ (kept = false -> fs' = fs).
Proof.
  unfold do_artifact_basedir, bind, lift, gets, ret.
  destruct r as [| | | | |rec|]; simpl; try discriminate.
  intros H. exists rec. split; [reflexivity|].
  destruct (is_optional rec
            && negb (path_exists (joinpath (arg_root_dir args) k) fs)).
  - injection H as <- <-. auto.
  - simpl. split; [|intros ->].
    + repeat match type of H with
             | context [match ?x with _ => _ end] => destruct x
             end; congruence.
    + exfalso.
      repeat match type of H with
             | context [match ?x with _ => _ end] => destruct x
             end; congruence.
Qed.

Lemma loop_outcome args items acc fs rel fs' :
  loop args items acc fs = (Ok rel, fs') ->
  exists kept,
    rel = acc ++ kept
    /\ sublist kept (List.map fst items)
    /\ (forall k rec, In (k, PDict rec) items -> is_optional rec = false ->
                      In k kept).
Proof.
  revert acc fs. induction items as [|[k r] items IH]; intros acc fs; simpl.
  - unfold ret. intros [= <- <-]. exists []. rewrite app_nil_r.
    split; [reflexivity|]. split; [constructor|]. intros k rec [].
  - unfold bind.
    destruct (basedir_step args k r fs) as [[kept|e] fs1] eqn:Hstep;
      [|discriminate].
    intros Hrest. apply basedir_outcome in Hstep as (rec & -> & Hkept & _).
    apply IH in Hrest as (more & -> & Hsub & Hin).
    destruct kept.
    + exists (k :: more). rewrite <- app_assoc. split; [reflexivity|].
      split; [simpl; constructor; exact Hsub|].
      intros k' rec' [[= -> ->]|Hin'] Hopt; [left; reflexivity|].
      right. eapply Hin; eassumption.
    + exists more. split; [reflexivity|].
      split; [simpl; constructor; exact Hsub|].
      intros k' rec' [[= -> ->]|Hin'] Hopt.
      * rewrite Hopt in Hkept. discriminate.
      * eapply Hin; eassumption.
Qed.

(** One iteration, with the construction of the matcher set apart. *)
Lemma basedir_step_factor args k rec fs :
  basedir_step args k (PDict rec) fs =
  if is_optional rec
     && negb (path_exists (joinpath (arg_root_dir args) k) fs)
  then (Ok false, fs)
  else
    match matcher_of registry (arg_component args) rec with
    | Raise e => (Raise e, fs)
    | Ok pm =>
        match add_basedir (joinpath (arg_root_dir args) k) pm fs with
        | Raise e => (Raise e, fs)
        | Ok pm' =>
            match copy_to pm' (arg_output_dir args) (k +:+ "/") false fs with
            | (Ok _, fs') => (Ok true, fs')
            | (Raise e, fs') => (Raise e, fs')
            end
        end
    end.
Proof.
  unfold do_artifact_basedir, matcher_of, bind, lift, gets, ret. simpl.
  destruct (is_optional rec
            && negb (path_exists (joinpath (arg_root_dir args) k) fs));
    [reflexivity|].
  destruct (_dup_list_or_str (dict_get rec "force_include")); [|reflexivity].
  destruct (_dup_list_or_str (dict_get rec "include")); [|reflexivity].
  destruct (_dup_list_or_str (dict_get rec "exclude")); [|reflexivity].
  destruct (add_basedir _ _ fs); [|reflexivity].
  destruct (copy_to _ _ _ false fs) as [[[]|e] fs']; reflexivity.
Qed.

Local Abbreviation composes :=
  (Composes FS path_exists add_basedir copy_to platform_system str_other
     registry).

Lemma loop_composes args items acc fs rel fs' :
  loop args items acc fs = (Ok rel, fs') <->
  exists kept, rel = acc ++ kept /\ composes args items fs kept fs'.
Proof.
  split.
  - revert acc fs. induction items as [|[k r] items IH]; intros acc fs; simpl.
    + unfold ret. intros [= <- <-]. exists []. rewrite app_nil_r.
      split; [reflexivity | constructor].
    + unfold bind.
      destruct (basedir_step args k r fs) as [[kept|e] fs1] eqn:Hstep;
        [|discriminate].
      intros Hrest. apply IH in Hrest as (more & -> & Hmore).
      destruct r as [| | | | |rec|]; try discriminate.
      rewrite basedir_step_factor in Hstep.
      destruct (is_optional rec
                && negb (path_exists (joinpath (arg_root_dir args) k) fs))
        eqn:Hskip.
      * injection Hstep as <- <-. apply andb_true_iff in Hskip as [Ho Hm].
        apply negb_true_iff in Hm.
        exists more. split; [reflexivity|].
        apply Composes_skip; assumption.
      * destruct (matcher_of registry (arg_component args) rec) as [pm|e]
          eqn:Hpm; [|discriminate].
        destruct (add_basedir (joinpath (arg_root_dir args) k) pm fs)
          as [pm'|e] eqn:Hscan; [|discriminate].
        destruct (copy_to pm' (arg_output_dir args) (k +:+ "/") false fs)
          as [[[]|e] fs2] eqn:Hcopy; [|discriminate].
        injection Hstep as <- <-.
        exists (k :: more). rewrite <- app_assoc. split; [reflexivity|].
        eapply Composes_copy; eassumption.
  - intros (kept & -> & H). revert acc.
    induction H as [fs|k rec rest fs fs' rel Ho Hm _ IH
                   |k rec rest fs fs1 fs' pm pm' rel Hskip Hpm Hscan Hcopy _ IH];
      intros acc.
    + simpl. rewrite app_nil_r. reflexivity.
    + simpl. unfold bind. rewrite basedir_step_factor, Ho, Hm. simpl.
      apply IH.
    + simpl. unfold bind.
      rewrite basedir_step_factor, Hskip, Hpm, Hscan, Hcopy.
      rewrite IH, <- app_assoc. reflexivity.
Qed.

Lemma recreate_unfold output_dir fs :
  recreate output_dir fs =
  match (if path_exists output_dir fs then rmtree output_dir fs
         else (Ok tt, fs)) with
  | (Ok _, fsr) => mkdir_parents output_dir fsr
  | (Raise e, fsr) => (Raise e, fsr)
  end.
Proof.
  unfold recreate_output_dir, bind, gets, ret.
  destruct (path_exists output_dir fs); reflexivity.
Qed.


Lemma run_from_loop args fs loaded fs0 items :
  tomllib_load (arg_descriptor args) fs = Ok loaded ->
  recreate (arg_output_dir args) fs = (Ok tt, fs0) ->
  component_record_of loaded (arg_component args) = Ok (PDict items) ->
  run args fs =
  match loop args items [] fs0 with
  | (Ok rel, fs1) =>
      write_text (joinpath (arg_output_dir args) "artifact_manifest.txt")
        (manifest_text rel) fs1
  | (Raise e, fs1) => (Raise e, fs1)
  end.
Proof.
  intros Hload Hrec Hcomp. unfold do_artifact, load_toml_file, bind, lift.
  rewrite Hload, or_empty_dict, Hrec, Hcomp. reflexivity.
Qed.

(** C5. Take an entry of the component's record whose [optional] value
    resolves true on this platform and whose base directory does not exist
    when the loop reaches it. Its iteration returns without raising and leaves
    the filesystem as it found it; the whole loop behaves as on the record
    without that entry, so [do_artifact] is the run on that smaller record;
    and the entry's key, which a dict holds once, is not among the paths
    written to the manifest. *)
Theorem do_artifact_skips_missing_optional (args : ArtifactArgs) (fs fs0 fs1 : FS)
    (loaded pre post rec : list (string * pyval)) (k : string)
    (acc1 : list string) :
  tomllib_load (arg_descriptor args) fs = Ok loaded ->
  recreate (arg_output_dir args) fs = (Ok tt, fs0) ->
  component_record_of loaded (arg_component args)
  = Ok (PDict (pre ++ (k, PDict rec) :: post)) ->
  loop args pre [] fs0 = (Ok acc1, fs1) ->
  is_optional rec = true ->
  path_exists (joinpath (arg_root_dir args) k) fs1 = false ->
  basedir_step args k (PDict rec) fs1 = (Ok false, fs1)
  /\ loop args (pre ++ (k, PDict rec) :: post) [] fs0
     = loop args (pre ++ post) [] fs0
  /\ run args fs
     = match loop args (pre ++ post) [] fs0 with
       | (Ok rel, fs2) =>
           write_text (joinpath (arg_output_dir args) "artifact_manifest.txt")
             (manifest_text rel) fs2
       | (Raise e, fs2) => (Raise e, fs2)
       end
  /\ (NoDup (List.map fst (pre ++ (k, PDict rec) :: post)) ->
      forall rel fs2,
        loop args (pre ++ (k, PDict rec) :: post) [] fs0 = (Ok rel, fs2) ->
        ~ In k rel).
Proof.
  intros Hload Hrec Hcomp Hpre Hopt Hmiss.
  assert (Hstep : basedir_step args k (PDict rec) fs1 = (Ok false, fs1))
    by (apply basedir_skipped; assumption).
  assert (Hsame : loop args (pre ++ (k, PDict rec) :: post) [] fs0
                  = loop args (pre ++ post) [] fs0).
  { rewrite !loop_app, Hpre. simpl. unfold bind. rewrite Hstep. reflexivity. }
  split; [exact Hstep|]. split; [exact Hsame|]. split.
  - rewrite (run_from_loop _ _ _ _ _ Hload Hrec Hcomp), Hsame. reflexivity.
  - intros Hnodup rel fs2 Hloop Hin. rewrite Hsame in Hloop.
    apply loop_outcome in Hloop as (kept & -> & Hsub & _). simpl in Hin.
    apply list_elem_of_In in Hin.
    pose proof (elem_of_sublist _ _ _ Hin Hsub) as Hk.
    apply list_elem_of_In in Hk.
    rewrite map_app in Hnodup, Hk. simpl in Hnodup.
    apply NoDup_ListNoDup in Hnodup.
    apply List.NoDup_remove_2 in Hnodup. contradiction.
Qed.

End ArtifactProps.


(** On the small filesystem: ["stage/extra"] is optional on Linux and is not
    in the build tree, so its iteration changes nothing and the manifest does
    not list it. *)
Lemma do_artifact_skips_missing_optional_witness :
  Toy.path_exists (Path_of "build/stage/extra")
    (snd (do_artifact_loop Toy.FS Toy.path_exists Toy.add_basedir Toy.copy_to
            "Linux" Toy.str_other builtin_registry Toy.artifact_args
            [("stage/core", PDict [])] [] Toy.build_tree)) = false
  /\ forall rel fs2,
       do_artifact_loop Toy.FS Toy.path_exists Toy.add_basedir Toy.copy_to
         "Linux" Toy.str_other builtin_registry Toy.artifact_args
         [("stage/core", PDict []);
          ("stage/extra", PDict [("optional", PStr "linux")])] []
         Toy.build_tree = (Ok rel, fs2) ->
       ~ In "stage/extra" rel.
Proof.
  split; [vm_compute; reflexivity|].
  pose (fs1 := snd (do_artifact_loop Toy.FS Toy.path_exists Toy.add_basedir
                      Toy.copy_to "Linux" Toy.str_other builtin_registry
                      Toy.artifact_args [("stage/core", PDict [])] []
                      Toy.build_tree)).
  refine (proj2 (proj2 (proj2
    (do_artifact_skips_missing_optional Toy.FS Toy.path_exists Toy.rmtree
       Toy.mkdir_parents Toy.write_text (Toy.tomllib_load Toy.descriptor)
       Toy.add_basedir Toy.copy_to "Linux" Toy.str_other builtin_registry
       Toy.artifact_args Toy.build_tree Toy.build_tree fs1 Toy.descriptor
       [("stage/core", PDict [])] [] [("optional", PStr "linux")]
       "stage/extra" ["stage/core"] _ _ _ _ _ _))) _);
    try (vm_compute; reflexivity).
  apply (bool_decide_unpack _). vm_compute. exact I.
Defined.

(** ** do_artifact_archive *)

Lemma path_name_manifest (p : Path) :
  path_name (joinpath p "artifact_manifest.txt") = "artifact_manifest.txt".
Proof.
  unfold joinpath.
  change (Path_of "artifact_manifest.txt")
    with (mkPath false ["artifact_manifest.txt"]).
  simpl. unfold path_name. simpl. apply List.last_last.
Qed.

Lemma add_members_nil arc : add_members arc [] = arc.
Proof. destruct arc. unfold add_members. simpl. rewrite app_nil_r. reflexivity. Qed.

Lemma add_members_app arc xs ys :
  add_members (add_members arc xs) ys = add_members arc (xs ++ ys).
Proof. unfold add_members. simpl. rewrite <- app_assoc. reflexivity. Qed.

Lemma has_slash_app (a b : string) : has_slash (a +:+ "/" +:+ b) = true.
Proof.
  induction a as [|c a IH]; simpl.
  - reflexivity.
  - rewrite IH. apply orb_true_r.
Qed.

Lemma lstrip_slash_relative (c : ascii) (s : string) :
  Ascii.eqb c slash = false -> lstrip_slash (String c s) = String c s.
Proof. intros H. simpl. rewrite H. reflexivity. Qed.

Section ArchiveProps.
Variable FS : Type.
Variable path_exists : Path -> FS -> bool.
Variable read_text : Path -> FS -> result string.
Variable unlink : Path -> M FS unit.
Variable mkdir_parents : Path -> M FS unit.
Variable add_basedir : Path -> PatternMatcher -> FS -> result PatternMatcher.
Variable tarfile_create : Path -> Z -> M FS unit.
Variable tarfile_close : TarFile -> M FS unit.
Variable abspath : Path -> Path.
Variable tarfile_gettarinfo : Path -> FS -> result bool.
Variable calculate_hash : Path -> string -> FS -> result string.
Variable write_hash : Path -> string -> M FS unit.

Local Abbreviation add := (arc_add FS abspath tarfile_gettarinfo).
Local Abbreviation entries_loop :=
  (archive_entries FS abspath tarfile_gettarinfo).
Local Abbreviation relpath_step :=
  (archive_relpath FS path_exists add_basedir abspath tarfile_gettarinfo).
Local Abbreviation relpaths_loop :=
  (archive_relpaths FS path_exists add_basedir abspath tarfile_gettarinfo).
Local Abbreviation artifact_step :=
  (archive_artifact FS path_exists read_text add_basedir abspath
     tarfile_gettarinfo).
Local Abbreviation artifacts_loop :=
  (archive_artifacts FS path_exists read_text add_basedir abspath
     tarfile_gettarinfo).
Local Abbreviation run :=
  (do_artifact_archive FS path_exists read_text unlink mkdir_parents
     add_basedir tarfile_create tarfile_close abspath tarfile_gettarinfo
     calculate_hash write_hash).
Local Abbreviation scan := (scanned FS add_basedir).
Local Abbreviation kept := (stored FS abspath tarfile_gettarinfo).
Local Abbreviation kept_entry := (stored_entry FS abspath tarfile_gettarinfo).
Local Abbreviation kept_manifest :=
  (stored_manifest FS abspath tarfile_gettarinfo).
Local Abbreviation skipped := (passed_over FS abspath tarfile_gettarinfo).
Local Abbreviation payload :=
  (payload_of FS path_exists add_basedir abspath tarfile_gettarinfo).
Local Abbreviation lines := (manifest_lines FS read_text).
Local Abbreviation layout :=
  (archive_layout FS path_exists read_text add_basedir abspath
     tarfile_gettarinfo).
Local Abbreviation whole_payload :=
  (artifact_payload FS path_exists read_text add_basedir abspath
     tarfile_gettarinfo).

(** A file can be given to [TarFile.add] without an exception: it is the
    archive itself, or its metadata and content can be read. *)
Local Abbreviation addable fs arc_path path :=
  (bool_decide (abspath path = abspath arc_path) = true
   \/ exists supported, tarfile_gettarinfo path fs = Ok supported).

Lemma add_outcome fs path name arc arc' :
  add fs path name arc = (Ok tt, arc') ->
  addable fs (tf_path arc) path
  /\ arc' = add_members arc (kept fs (tf_path arc) path name).
Proof.
  unfold arc_add, stored.
  destruct (bool_decide (abspath path = abspath (tf_path arc)));
    [intros [= <-]; split; [auto | symmetry; apply add_members_nil]|].
  destruct (tarfile_gettarinfo path fs) as [[]|e]; [| |discriminate].
  - intros [= <-]. split; [eauto | reflexivity].
  - intros [= <-]. split; [eauto | symmetry; apply add_members_nil].
Qed.

Lemma add_addable fs path name arc :
  addable fs (tf_path arc) path ->
  add fs path name arc
  = (Ok tt, add_members arc (kept fs (tf_path arc) path name)).
Proof.
  unfold arc_add, stored. intros [Hself|[supported Hinfo]].
  - rewrite Hself, add_members_nil. reflexivity.
  - destruct (bool_decide (abspath path = abspath (tf_path arc)));
      [rewrite add_members_nil; reflexivity|].
    rewrite Hinfo. destruct supported;
      [reflexivity | rewrite add_members_nil; reflexivity].
Qed.

Lemma entries_outcome fs relpath entries arc arc' :
  entries_loop fs relpath entries arc = (Ok tt, arc') <->
  (forall entry, In entry entries ->
                 addable fs (tf_path arc) (de_path (snd entry)))
  /\ arc' = add_members arc
              (flat_map (kept_entry fs (tf_path arc) relpath) entries).
Proof.
  revert arc. induction entries as [|[subpath dir_entry] rest IH];
    intros arc; simpl.
  - unfold ret. rewrite add_members_nil. split.
    + intros [= <-]. split; [intros entry []|reflexivity].
    + intros [_ ->]. reflexivity.
  - unfold bind. split.
    + destruct (add fs (de_path dir_entry) (relpath +:+ "/" +:+ subpath) arc)
        as [[[]|e] arc1] eqn:Hadd; [|discriminate].
      apply add_outcome in Hadd as [Hok ->].
      intros H. apply IH in H as [Hrest ->]. simpl.
      split.
      * intros entry [<-|Hin]; [exact Hok | apply Hrest; exact Hin].
      * rewrite add_members_app. reflexivity.
    + intros [Hall ->].
      rewrite add_addable by (apply (Hall (subpath, dir_entry)); left; reflexivity).
      apply IH. simpl. split.
      * intros entry Hin. apply Hall. right. exact Hin.
      * rewrite add_members_app. reflexivity.
Qed.

Lemma relpath_outcome fs artifact_path relpath arc arc' :
  relpath_step fs artifact_path relpath arc = (Ok tt, arc') ->
  arc' = add_members arc (payload fs (tf_path arc) artifact_path relpath).
Proof.
  unfold archive_relpath, payload_of, scanned.
  destruct (String.eqb relpath "");
    [intros [= <-]; symmetry; apply add_members_nil|].
  destruct (path_exists (joinpath artifact_path relpath) fs); simpl;
    [|intros [= <-]; symmetry; apply add_members_nil].
  unfold bind, lift.
  destruct (add_basedir (joinpath artifact_path relpath)
              (PatternMatcher_new [] [] []) fs) as [pm|e]; [|discriminate].
  intros H. apply entries_outcome in H as [_ ->]. reflexivity.
Qed.

Lemma relpaths_outcome fs artifact_path relpaths arc arc' :
  relpaths_loop fs artifact_path relpaths arc = (Ok tt, arc') ->
  arc' = add_members arc
           (flat_map (payload fs (tf_path arc) artifact_path) relpaths).
Proof.
  revert arc. induction relpaths as [|relpath rest IH]; intros arc; simpl.
  - intros [= <-]. symmetry. apply add_members_nil.
  - unfold bind.
    destruct (relpath_step fs artifact_path relpath arc) as [[[]|e] arc1]
      eqn:Hstep; [|discriminate].
    apply relpath_outcome in Hstep as ->.
    intros H. apply IH in H. simpl in H. rewrite add_members_app in H.
    exact H.
Qed.

Lemma artifact_outcome fs artifact_path arc arc' :
  artifact_step fs artifact_path arc = (Ok tt, arc') ->
  addable fs (tf_path arc) (joinpath artifact_path "artifact_manifest.txt")
  /\ arc' = add_members arc
              (kept_manifest fs (tf_path arc) artifact_path
               ++ whole_payload fs (tf_path arc) artifact_path).
Proof.
  unfold archive_artifact, artifact_payload, manifest_lines, stored_manifest,
    bind, lift.
  destruct (read_text (joinpath artifact_path "artifact_manifest.txt") fs)
    as [text|e]; [|discriminate].
  rewrite path_name_manifest.
  destruct (add fs (joinpath artifact_path "artifact_manifest.txt")
              "artifact_manifest.txt" arc) as [[[]|e] arc1] eqn:Hadd;
    [|discriminate].
  apply add_outcome in Hadd as [Hok ->].
  intros H. apply relpaths_outcome in H. simpl in H.
  rewrite add_members_app in H. split; [exact Hok | exact H].
Qed.

Lemma artifacts_outcome fs artifacts arc arc' :
  artifacts_loop fs artifacts arc = (Ok tt, arc') ->
  (forall a, In a artifacts ->
             addable fs (tf_path arc) (joinpath a "artifact_manifest.txt"))
  /\ arc' = add_members arc (layout fs (tf_path arc) artifacts).
Proof.
  revert arc. induction artifacts as [|artifact_path rest IH]; intros arc;
    simpl.
  - intros [= <-]. split; [intros a []|]. symmetry. apply add_members_nil.
  - unfold bind.
    destruct (artifact_step fs artifact_path arc) as [[[]|e] arc1] eqn:Hstep;
      [|discriminate].
    apply artifact_outcome in Hstep as [Hok ->].
    intros H. apply IH in H as [Hrest ->]. simpl in *. split.
    + intros a [<-|Hin]; [exact Hok | apply Hrest; exact Hin].
    + rewrite add_members_app. reflexivity.
Qed.

(** A completed [do_artifact_archive] returns the archive that the loop over
    the artifact directories built from an empty one, reading the filesystem
    left by the creation of the archive file. *)
Lemma run_outcome args fs arc fs' :
  run args fs = (Ok arc, fs') ->
  exists fs1,
    artifacts_loop fs1 (arg_artifact args)
      (mkTarFile (arg_o args) (arg_compression_level args) [])
    = (Ok tt, arc).
Proof.
  unfold do_artifact_archive, _open_archive, bind, gets, ret, lift.
  destruct ((if path_exists (arg_o args) fs then unlink (arg_o args)
             else fun s => (Ok tt, s)) fs) as [[[]|e] fsa]; [|discriminate].
  destruct (mkdir_parents (path_parent (arg_o args)) fsa) as [[[]|e] fsb];
    [|discriminate].
  destruct (tarfile_create (arg_o args) (arg_compression_level args) fsb)
    as [[[]|e] fs1]; [|discriminate].
  destruct (artifacts_loop fs1 (arg_artifact args)
              (mkTarFile (arg_o args) (arg_compression_level args) []))
    as [outcome arc1] eqn:Hloop.
  destruct (tarfile_close arc1 fs1) as [[[]|e] fsc]; [|discriminate].
  destruct outcome as [[]|e]; [|discriminate].
  intros H. exists fs1.
  destruct (arg_hash_file args) as [hash_file|].
  - destruct (calculate_hash (arg_o args) (arg_hash_algorithm args) fsc)
      as [digest|e]; [|discriminate].
    destruct (write_hash hash_file digest fsc) as [[[]|e] fsd];
      [|discriminate].
    injection H as <- _. exact Hloop.
  - injection H as <- _. exact Hloop.
Qed.

Lemma run_layout args fs arc fs' :
  run args fs = (Ok arc, fs') ->
  exists fs1,
    (forall a, In a (arg_artifact args) ->
               addable fs1 (arg_o args) (joinpath a "artifact_manifest.txt"))
    /\ tf_members arc = layout fs1 (arg_o args) (arg_artifact args).
Proof.
  intros H. apply run_outcome in H as (fs1 & Hloop).
  exists fs1. apply artifacts_outcome in Hloop as [Hok ->].
  split; [exact Hok | reflexivity].
Qed.

Lemma manifest_kept fs arc_path a :
  addable fs arc_path (joinpath a "artifact_manifest.txt") ->
  skipped fs arc_path (joinpath a "artifact_manifest.txt") = false ->
  kept_manifest fs arc_path a = [manifest_member a].
Proof.
  unfold passed_over, stored_manifest, stored. intros Hok Hskip.
  apply orb_false_iff in Hskip as [Hself Hinfo]. rewrite Hself.
  destruct Hok as [Hs|[supported Hs]]; [congruence|].
  rewrite Hs in *. destruct supported; [reflexivity | discriminate].
Qed.

Lemma passed_over_stores_nothing fs arc_path path name :
  skipped fs arc_path path = true -> kept fs arc_path path name = [].
Proof.
  unfold passed_over, stored. intros H.
  destruct (bool_decide (abspath path = abspath arc_path)); [reflexivity|].
  simpl in H. destruct (tarfile_gettarinfo path fs) as [[]|e];
    [discriminate | reflexivity | reflexivity].
Qed.

Lemma manifest_block fs arc_path a :
  addable fs arc_path (joinpath a "artifact_manifest.txt") ->
  kept_manifest fs arc_path a
  = if skipped fs arc_path (joinpath a "artifact_manifest.txt")
    then [] else [manifest_member a].
Proof.
  intros Hok.
  destruct (skipped fs arc_path (joinpath a "artifact_manifest.txt"))
    eqn:Hskip.
  - apply passed_over_stores_nothing. exact Hskip.
  - apply manifest_kept; assumption.
Qed.

Lemma stored_kept fs arc_path path name m :
  In m (kept fs arc_path path name) ->
  source m = path /\ skipped fs arc_path path = false.
Proof.
  unfold stored, passed_over.
  destruct (bool_decide (abspath path = abspath arc_path)); [intros []|].
  destruct (tarfile_gettarinfo path fs) as [[]|e];
    [|intros []|intros []].
  intros [<-|[]]. split; reflexivity.
Qed.

Lemma layout_members_kept fs arc_path artifacts m :
  In m (layout fs arc_path artifacts) ->
  skipped fs arc_path (source m) = false.
Proof.
  unfold archive_layout. intros H.
  apply in_flat_map in H as (a & _ & H). apply in_app_or in H as [H|H].
  - apply stored_kept in H as [-> H]. exact H.
  - unfold artifact_payload in H. apply in_flat_map in H as (relpath & _ & H).
    unfold payload_of in H.
    destruct (String.eqb relpath ""); [destruct H|].
    destruct (negb (path_exists (joinpath a relpath) fs)); [destruct H|].
    apply in_flat_map in H as (entry & _ & H).
    apply stored_kept in H as [-> H]. exact H.
Qed.


(** C7, amended. One manifest line: a blank line adds nothing and does not
    raise; a line naming a directory that does not exist under the artifact
    directory adds nothing and does not raise; any other line hands every item
    the scan of that directory recorded, in the scan's order, to
    [TarFile.add] under the name [<line>/<path of the item under the
    directory>]. An item that is the archive file itself, or of a type that
    tar does not store, is passed over without an error; an item whose
    metadata cannot be read raises; any other item is stored under that name
    without its leading slashes, which is the name itself when the line does
    not start with a slash. The loop over an artifact treats the lines of its
    manifest one after the other in this way, after its manifest. *)
Theorem archive_relpath_cases (fs : FS) (artifact_path : Path)
    (relpath : string) (arc : TarFile) :
  archive_relpath FS path_exists add_basedir abspath tarfile_gettarinfo fs
    artifact_path "" arc = (Ok tt, arc)
  /\ (path_exists (joinpath artifact_path relpath) fs = false ->
      archive_relpath FS path_exists add_basedir abspath tarfile_gettarinfo
        fs artifact_path relpath arc = (Ok tt, arc))
  /\ (forall pm,
        relpath <> "" ->
        path_exists (joinpath artifact_path relpath) fs = true ->
        add_basedir (joinpath artifact_path relpath)
          (PatternMatcher_new [] [] []) fs = Ok pm ->
        archive_relpath FS path_exists add_basedir abspath tarfile_gettarinfo
          fs artifact_path relpath arc
        = archive_entries FS abspath tarfile_gettarinfo fs relpath
            (pm_all pm) arc)
  /\ archive_entries FS abspath tarfile_gettarinfo fs relpath [] arc
     = (Ok tt, arc)
  /\ (forall subpath dir_entry rest,
        archive_entries FS abspath tarfile_gettarinfo fs relpath
          ((subpath, dir_entry) :: rest) arc
        = if bool_decide (abspath (de_path dir_entry) = abspath (tf_path arc))
          then archive_entries FS abspath tarfile_gettarinfo fs relpath rest
                 arc
          else
            match tarfile_gettarinfo (de_path dir_entry) fs with
            | Raise e => (Raise e, arc)
            | Ok false =>
                archive_entries FS abspath tarfile_gettarinfo fs relpath rest
                  arc
            | Ok true =>
                archive_entries FS abspath tarfile_gettarinfo fs relpath rest
                  (add_members arc
                     [mkTarMember
                        (lstrip_slash (relpath +:+ "/" +:+ subpath))
                        (de_path dir_entry)])
            end)
  /\ (forall c line subpath,
        relpath = String c line ->
        Ascii.eqb c slash = false ->
        lstrip_slash (relpath +:+ "/" +:+ subpath)
        = relpath +:+ "/" +:+ subpath)
  /\ (forall pm,
        relpath <> "" ->
        path_exists (joinpath artifact_path relpath) fs = true ->
        add_basedir (joinpath artifact_path relpath)
          (PatternMatcher_new [] [] []) fs = Ok pm ->
        (forall entry,
           In entry (pm_all pm) ->
           passed_over FS abspath tarfile_gettarinfo fs (tf_path arc)
             (de_path (snd entry)) = false
           /\ exists supported,
                tarfile_gettarinfo (de_path (snd entry)) fs = Ok supported) ->
        archive_relpath FS path_exists add_basedir abspath tarfile_gettarinfo
          fs artifact_path relpath arc
        = (Ok tt,
           add_members arc
             (List.map
                (fun entry =>
                   mkTarMember (lstrip_slash (relpath +:+ "/" +:+ fst entry))
                     (de_path (snd entry)))
                (pm_all pm))))
  /\ (forall text arc',
        read_text (joinpath artifact_path "artifact_manifest.txt") fs = Ok text ->
        archive_artifact FS path_exists read_text add_basedir abspath
          tarfile_gettarinfo fs artifact_path arc = (Ok tt, arc') ->
        arc' = add_members arc
                 (stored_manifest FS abspath tarfile_gettarinfo fs
                    (tf_path arc) artifact_path
                  ++ flat_map
                       (payload_of FS path_exists add_basedir abspath
                          tarfile_gettarinfo fs (tf_path arc) artifact_path)
                       (splitlines text))).
Proof.
  assert (Hline : forall pm,
            relpath <> "" ->
            path_exists (joinpath artifact_path relpath) fs = true ->
            add_basedir (joinpath artifact_path relpath)
              (PatternMatcher_new [] [] []) fs = Ok pm ->
            relpath_step fs artifact_path relpath arc
            = entries_loop fs relpath (pm_all pm) arc).
  { intros pm Hne Hex Hscan. unfold archive_relpath.
    destruct (String.eqb_spec relpath "") as [->|_]; [contradiction|].
    rewrite Hex. simpl. unfold bind, lift. rewrite Hscan. reflexivity. }
  split; [reflexivity|]. split; [|split; [|split; [|split; [|split; [|split]]]]].
  - intros Hmiss. unfold archive_relpath. rewrite Hmiss.
    destruct (String.eqb relpath ""); reflexivity.
  - exact Hline.
  - reflexivity.
  - intros subpath dir_entry rest. simpl. unfold bind, arc_add.
    destruct (bool_decide (abspath (de_path dir_entry) = abspath (tf_path arc)));
      [reflexivity|].
    destruct (tarfile_gettarinfo (de_path dir_entry) fs) as [[]|e];
      reflexivity.
  - intros c line subpath -> Hc.
    change (String c line +:+ "/" +:+ subpath)
      with (String c (line +:+ "/" +:+ subpath)).
    apply lstrip_slash_relative. exact Hc.
  - intros pm Hne Hex Hscan Hall. rewrite (Hline pm Hne Hex Hscan).
    apply entries_outcome. split.
    + intros entry Hin. right. apply (Hall entry Hin).
    + f_equal. induction (pm_all pm) as [|entry more IH]; simpl.
      * reflexivity.
      * rewrite IH by (intros x Hx; apply Hall; right; exact Hx).
        destruct (Hall entry (or_introl eq_refl)) as (Hskip & supported & Hs).
        unfold stored_entry, stored. unfold passed_over in Hskip.
        apply orb_false_iff in Hskip as [-> Hinfo]. rewrite Hs in *.
        destruct supported; [reflexivity | discriminate].
  - intros text arc' Htext Hstep. apply artifact_outcome in Hstep as [_ ->].
    unfold artifact_payload, manifest_lines. rewrite Htext. reflexivity.
Qed.

Lemma layout_manifest_count fs arc_path artifacts :
  (forall a, In a artifacts ->
             addable fs arc_path (joinpath a "artifact_manifest.txt")) ->
  length (List.filter
            (fun a => negb (skipped fs arc_path
                              (joinpath a "artifact_manifest.txt")))
            artifacts)
  <= length (List.filter
               (fun m => String.eqb (arcname m) "artifact_manifest.txt")
               (layout fs arc_path artifacts)).
Proof.
  unfold archive_layout. induction artifacts as [|a rest IH]; intros Hok;
    simpl.
  - lia.
  - rewrite !List.filter_app, !length_app.
    rewrite manifest_block by (apply Hok; left; reflexivity).
    specialize (IH (fun b Hb => Hok b (or_intror Hb))).
    destruct (skipped fs arc_path (joinpath a "artifact_manifest.txt"));
      simpl; lia.
Qed.


Local Abbreviation agree :=
  (same_answers FS path_exists read_text add_basedir tarfile_gettarinfo).

Lemma add_agree fs1 fs2 path name arc :
  tarfile_gettarinfo path fs1 = tarfile_gettarinfo path fs2 ->
  add fs1 path name arc = add fs2 path name arc.
Proof. intros H. unfold arc_add. rewrite H. reflexivity. Qed.

Lemma entries_agree fs1 fs2 relpath entries arc :
  (forall entry, In entry entries ->
                 tarfile_gettarinfo (de_path (snd entry)) fs1
                 = tarfile_gettarinfo (de_path (snd entry)) fs2) ->
  entries_loop fs1 relpath entries arc = entries_loop fs2 relpath entries arc.
Proof.
  revert arc. induction entries as [|[subpath dir_entry] rest IH];
    intros arc Hread; simpl.
  - reflexivity.
  - unfold bind.
    rewrite <- (add_agree fs1 fs2)
      by (apply (Hread (subpath, dir_entry)); left; reflexivity).
    destruct (add fs1 (de_path dir_entry) (relpath +:+ "/" +:+ subpath) arc)
      as [[[]|e] arc1]; [|reflexivity].
    apply IH. intros entry Hin. apply Hread. right. exact Hin.
Qed.

Lemma relpaths_agree fs1 fs2 artifact_path relpaths arc :
  (forall relpath,
     In relpath relpaths ->
     path_exists (joinpath artifact_path relpath) fs1
     = path_exists (joinpath artifact_path relpath) fs2
     /\ add_basedir (joinpath artifact_path relpath)
          (PatternMatcher_new [] [] []) fs1
        = add_basedir (joinpath artifact_path relpath)
            (PatternMatcher_new [] [] []) fs2
     /\ forall entry,
          In entry (scan fs1 artifact_path relpath) ->
          tarfile_gettarinfo (de_path (snd entry)) fs1
          = tarfile_gettarinfo (de_path (snd entry)) fs2) ->
  relpaths_loop fs1 artifact_path relpaths arc
  = relpaths_loop fs2 artifact_path relpaths arc.
Proof.
  revert arc. induction relpaths as [|relpath rest IH]; intros arc Hsame;
    simpl.
  - reflexivity.
  - unfold bind.
    assert (Hstep : relpath_step fs1 artifact_path relpath arc
                    = relpath_step fs2 artifact_path relpath arc).
    { destruct (Hsame relpath (or_introl eq_refl)) as (Hex & Hscan & Hread).
      unfold archive_relpath. rewrite <- Hex.
      destruct (String.eqb relpath ""); [reflexivity|].
      destruct (path_exists (joinpath artifact_path relpath) fs1);
        [|reflexivity].
      simpl. unfold bind, lift. rewrite <- Hscan.
      unfold scanned in Hread.
      destruct (add_basedir (joinpath artifact_path relpath)
                  (PatternMatcher_new [] [] []) fs1) as [pm|e];
        [|reflexivity].
      apply entries_agree. exact Hread. }
    rewrite <- Hstep.
    destruct (relpath_step fs1 artifact_path relpath arc) as [[[]|e] arc1];
      [|reflexivity].
    apply IH. intros r Hr. apply Hsame. right. exact Hr.
Qed.


End ArchiveProps.





(** C7, as the claim states it, fails: when the archive is written inside a
    directory that the manifest lists, the scan of that directory records the
    archive file, the run completes, and no member is added for it. *)
Lemma archive_passes_over_itself :
  exists arc fs',
    Toy.run_archive Toy.archive_inside_payload Toy.artifacts_fs = (Ok arc, fs')
    /\ In ("lib.tar.xz", mkDirEntry (Path_of "out/lib/stage/core/lib.tar.xz"))
         (Toy.scan (Path_of "out/lib/stage/core")
            (snd (Toy.tarfile_create (arg_o Toy.archive_inside_payload) 6
                    Toy.artifacts_fs)))
    /\ List.map arcname (tf_members arc)
       = ["artifact_manifest.txt"; "stage/core/lib/libb.so";
          "stage/core/lib/liba.so"]
    /\ existsb
         (fun m => String.eqb (arcname m) "stage/core/lib.tar.xz")
         (tf_members arc) = false.
Proof.
  do 2 eexists. split; [vm_compute; reflexivity|].
  split; [vm_compute; auto|]. split; reflexivity.
Qed.

(** The line ["stage/core"] of the first manifest adds the two files under
    that directory, in the order of the scan. *)
Lemma archive_relpath_cases_witness :
  archive_relpath Toy.FS Toy.path_exists Toy.add_basedir Toy.abspath
    Toy.tarfile_gettarinfo Toy.artifacts_fs (Path_of "out/lib") "stage/core"
    (mkTarFile (Path_of "dist/lib.tar.xz") 6 [])
  = (Ok tt,
     mkTarFile (Path_of "dist/lib.tar.xz") 6
       [mkTarMember "stage/core/lib/libb.so"
          (Path_of "out/lib/stage/core/lib/libb.so");
        mkTarMember "stage/core/lib/liba.so"
          (Path_of "out/lib/stage/core/lib/liba.so")]).
Proof.
  destruct (archive_relpath_cases Toy.FS Toy.path_exists Toy.read_text
              Toy.add_basedir Toy.abspath Toy.tarfile_gettarinfo
              Toy.artifacts_fs (Path_of "out/lib") "stage/core"
              (mkTarFile (Path_of "dist/lib.tar.xz") 6 []))
    as (_ & _ & _ & _ & _ & _ & H & _).
  rewrite (H (mkPatternMatcher [] [] []
                (Toy.scan (joinpath (Path_of "out/lib") "stage/core")
                   Toy.artifacts_fs))).
  - vm_compute. reflexivity.
  - discriminate.
  - vm_compute. reflexivity.
  - vm_compute. reflexivity.
  - intros entry Hentry. vm_compute in Hentry.
    destruct Hentry as [<-|[<-|[]]];
      (split; [vm_compute; reflexivity | exists true; vm_compute; reflexivity]).
Defined.


(** * Further properties *)

(** ** evaluate_optional and _dup_list_or_str *)

Lemma lower_char_idem (c : ascii) : lower_char (lower_char c) = lower_char c.
Proof. destruct c as [[] [] [] [] [] [] [] []]; vm_compute; reflexivity. Qed.

Lemma lower_idem (s : string) : lower (lower s) = lower s.
Proof.
  induction s as [|c s IH]; simpl; [reflexivity|].
  rewrite lower_char_idem, IH. reflexivity.
Qed.

(** X1. [evaluate_optional] does not see the case of letters: lowercasing
    the platform name, a string argument, or the strings of a list argument
    leaves its result as it was. *)
Theorem evaluate_optional_ignores_case (platform_system : string)
    (str_other : pyval -> string) :
  (forall v,
     evaluate_optional (lower platform_system) str_other v
     = evaluate_optional platform_system str_other v)
  /\ (forall s,
        evaluate_optional platform_system str_other (PStr (lower s))
        = evaluate_optional platform_system str_other (PStr s))
  /\ (forall ss : list string,
        evaluate_optional platform_system str_other
          (PList (List.map (fun s => PStr (lower s)) ss))
        = evaluate_optional platform_system str_other
            (PList (List.map PStr ss))).
Proof.
  split; [|split].
  - intros v. destruct v; simpl; try reflexivity; rewrite lower_idem;
      reflexivity.
  - intros s. simpl. rewrite lower_idem. reflexivity.
  - intros ss. simpl. induction ss as [|s ss IH]; simpl; [reflexivity|].
    rewrite lower_idem, IH. reflexivity.
Qed.

Lemma evaluate_optional_loop_app str_other name vs ws :
  evaluate_optional_loop str_other name (vs ++ ws)
  = evaluate_optional_loop str_other name vs
    || evaluate_optional_loop str_other name ws.
Proof.
  induction vs as [|v vs IH]; simpl; [reflexivity|].
  destruct (String.eqb (lower (py_str str_other v)) name); [reflexivity|].
  exact IH.
Qed.

(** X2. On a list, [evaluate_optional] asks whether any element names the
    platform: the result for a concatenation is the disjunction of the
    results for the parts, it does not depend on the order of the elements,
    and a string gives what the list holding only that string gives. *)
Theorem evaluate_optional_any_element (platform_system : string)
    (str_other : pyval -> string) :
  (forall vs ws,
     evaluate_optional platform_system str_other (PList (vs ++ ws))
     = evaluate_optional platform_system str_other (PList vs)
       || evaluate_optional platform_system str_other (PList ws))
  /\ (forall vs ws,
        Permutation vs ws ->
        evaluate_optional platform_system str_other (PList vs)
        = evaluate_optional platform_system str_other (PList ws))
  /\ (forall s,
        evaluate_optional platform_system str_other (PStr s)
        = evaluate_optional platform_system str_other (PList [PStr s])).
Proof.
  split; [|split].
  - intros vs ws. simpl. apply evaluate_optional_loop_app.
  - intros vs ws Hperm. simpl.
    induction Hperm as [|v vs ws _ IH|v w vs|vs ws us _ IH1 _ IH2]; simpl.
    + reflexivity.
    + rewrite IH. reflexivity.
    + destruct (String.eqb (lower (py_str str_other w)) (lower platform_system)),
        (String.eqb (lower (py_str str_other v)) (lower platform_system));
        reflexivity.
    + rewrite IH1. exact IH2.
  - reflexivity.
Qed.

(** X3. [_dup_list_or_str] raises only [TypeError], and only on a truthy
    value that is neither a string, a list nor a dict. What it returns is
    already in list form: given back as a list it comes out unchanged. A
    non-empty string gives what the list holding only that string gives,
    whereas the empty string gives no pattern and the list holding it gives
    one. *)
Theorem dup_list_or_str_normalises (v : pyval) :
  (forall e,
     _dup_list_or_str v = Raise e ->
     e = TypeError
     /\ truthy v = true
     /\ ((exists b, v = PBool b) \/ (exists n, v = PInt n)
         \/ (exists t shown, v = POpaque t shown)))
  /\ (forall items, _dup_list_or_str (PList items) = Ok items)
  /\ (forall s,
        s <> "" ->
        _dup_list_or_str (PStr s) = _dup_list_or_str (PList [PStr s]))
  /\ _dup_list_or_str (PStr "") = Ok []
  /\ _dup_list_or_str (PList [PStr ""]) = Ok [PStr ""].
Proof.
  split; [|split; [|split; [|split]]]; try reflexivity.
  - intros e H. unfold _dup_list_or_str in H.
    destruct (truthy v) eqn:Ht; [|discriminate]. simpl in H.
    destruct v; try discriminate; injection H as <-;
      (split; [reflexivity|]); (split; [reflexivity|]); eauto.
  - intros items. unfold _dup_list_or_str.
    destruct items; reflexivity.
  - intros s Hne. unfold _dup_list_or_str. simpl.
    destruct (String.eqb_spec s ""); [contradiction | reflexivity].
Qed.

(** ** The registry as it evolves *)

Lemma registry_grows_refl st : registry_grows st st.
Proof.
  split; [auto|]. intros obj cd H. exists cd.
  split; [exact H|]. split; [reflexivity|]. exists []. symmetry. apply app_nil_r.
Qed.

Lemma registry_grows_trans st1 st2 st3 :
  registry_grows st1 st2 -> registry_grows st2 st3 -> registry_grows st1 st3.
Proof.
  intros [Hn12 Ho12] [Hn23 Ho23]. split; [auto|].
  intros obj cd H.
  destruct (Ho12 _ _ H) as (cd2 & H2 & Hi2 & more2 & He2).
  destruct (Ho23 _ _ H2) as (cd3 & H3 & Hi3 & more3 & He3).
  exists cd3. split; [exact H3|]. split; [congruence|].
  exists (more2 ++ more3). rewrite He3, He2, app_assoc. reflexivity.
Qed.

Lemma grows_alloc hp (all : gmap string nat) cd :
  registry_grows (mkRegistry hp all) (mkRegistry (hp ++ [cd]) all).
Proof.
  split; [auto|]. simpl. intros obj cd0 H. exists cd0.
  split; [apply lookup_app_l_Some; exact H|].
  split; [reflexivity|]. exists []. symmetry. apply app_nil_r.
Qed.

Lemma init_grows name incs excs st :
  registry_grows st (snd (ComponentDefaults__init__ name incs excs st)).
Proof.
  destruct st as [hp all]. unfold ComponentDefaults__init__. simpl.
  destruct (negb (String.eqb name "")); [|apply grows_alloc].
  destruct (all !! name) as [obj|] eqn:Hname; [apply grows_alloc|].
  simpl. split.
  - simpl. intros n obj Hn. destruct (decide (name = n)) as [->|Hne].
    + congruence.
    + rewrite lookup_insert_ne by exact Hne. exact Hn.
  - apply (grows_alloc hp all).
Qed.

Lemma get_grows name st :
  registry_grows st (snd (ComponentDefaults_get name st)).
Proof.
  unfold ComponentDefaults_get. destruct (ALL st !! name).
  - apply registry_grows_refl.
  - apply init_grows.
Qed.

Lemma extend_grows obj items st :
  registry_grows st (snd (excludes_extend obj items st)).
Proof.
  unfold excludes_extend, modify. simpl. split; [auto|]. simpl.
  intros o cd H. destruct (decide (obj = o)) as [->|Hne].
  - exists (mkCD (includes cd) (excludes cd ++ items)).
    rewrite list_lookup_alter_eq, H. simpl. eauto.
  - exists cd. rewrite list_lookup_alter_ne by exact Hne.
    split; [exact H|]. split; [reflexivity|]. exists [].
    symmetry. apply app_nil_r.
Qed.

Lemma layer_unfold a b st :
  layer a b st =
  match ComponentDefaults_get a st with
  | (Ok target, st1) =>
      match ComponentDefaults_get b st1 with
      | (Ok source, st2) =>
          excludes_extend target (obj_includes source st2) st2
      | (Raise e, st2) => (Raise e, st2)
      end
  | (Raise e, st1) => (Raise e, st1)
  end.
Proof.
  unfold layer, bind, gets.
  destruct (ComponentDefaults_get a st) as [[target|e] st1]; [|reflexivity].
  destruct (ComponentDefaults_get b st1) as [[source|e] st2]; reflexivity.
Qed.

Lemma layer_grows a b st : registry_grows st (snd (layer a b st)).
Proof.
  rewrite layer_unfold.
  pose proof (get_grows a st) as H1.
  destruct (ComponentDefaults_get a st) as [[target|e] st1]; [|exact H1].
  pose proof (get_grows b st1) as H2. simpl in H1.
  destruct (ComponentDefaults_get b st1) as [[source|e] st2]; simpl in H2.
  - eapply registry_grows_trans; [exact H1|].
    eapply registry_grows_trans; [exact H2|]. apply extend_grows.
  - eapply registry_grows_trans; eassumption.
Qed.

(** X4. Nothing is ever taken out of the registry. Whatever [__init__],
    [get] or a layering statement does, and also when [__init__] raises,
    every name keeps the object it had, every object keeps its [includes],
    and the [excludes] of an object only get longer at the end. *)
Theorem registry_only_grows (st : Registry) :
  (forall name incs excs,
     registry_grows st (snd (ComponentDefaults__init__ name incs excs st)))
  /\ (forall name, registry_grows st (snd (ComponentDefaults_get name st)))
  /\ (forall a b, registry_grows st (snd (layer a b st))).
Proof.
  split; [|split].
  - intros. apply init_grows.
  - intros. apply get_grows.
  - intros. apply layer_grows.
Qed.

Lemma wf_alloc hp (all : gmap string nat) cd :
  registry_wf (mkRegistry hp all) -> registry_wf (mkRegistry (hp ++ [cd]) all).
Proof.
  intros (Hb & Hinj & He). split; [|split; assumption].
  simpl in *. intros name obj H. rewrite length_app. simpl.
  specialize (Hb _ _ H). lia.
Qed.

Lemma init_wf name incs excs st :
  registry_wf st ->
  registry_wf (snd (ComponentDefaults__init__ name incs excs st)).
Proof.
  destruct st as [hp all]. intros Hwf. unfold ComponentDefaults__init__. simpl.
  destruct (String.eqb_spec name "") as [->|Hne]; simpl;
    [apply wf_alloc; exact Hwf|].
  destruct (all !! name) as [obj|] eqn:Hname; simpl;
    [apply wf_alloc; exact Hwf|].
  destruct Hwf as (Hb & Hinj & He). simpl in *. split; [|split]; simpl.
  - intros n obj Hn. rewrite length_app. simpl.
    destruct (decide (name = n)) as [->|Hd].
    + rewrite lookup_insert_eq in Hn. injection Hn as <-. lia.
    + rewrite lookup_insert_ne in Hn by exact Hd. specialize (Hb _ _ Hn). lia.
  - intros n1 n2 obj H1 H2.
    destruct (decide (n1 = name)) as [->|D1], (decide (n2 = name)) as [->|D2].
    + reflexivity.
    + rewrite lookup_insert_eq in H1. injection H1 as <-.
      rewrite lookup_insert_ne in H2 by congruence.
      specialize (Hb _ _ H2). lia.
    + rewrite lookup_insert_eq in H2. injection H2 as <-.
      rewrite lookup_insert_ne in H1 by congruence.
      specialize (Hb _ _ H1). lia.
    + rewrite lookup_insert_ne in H1 by congruence.
      rewrite lookup_insert_ne in H2 by congruence. eauto.
  - rewrite lookup_insert_ne by exact Hne. exact He.
Qed.

Lemma get_wf name st :
  registry_wf st -> registry_wf (snd (ComponentDefaults_get name st)).
Proof.
  intros Hwf. unfold ComponentDefaults_get.
  destruct (ALL st !! name); [exact Hwf | apply init_wf; exact Hwf].
Qed.

Lemma extend_wf obj items st :
  registry_wf st -> registry_wf (snd (excludes_extend obj items st)).
Proof.
  intros (Hb & Hinj & He). unfold excludes_extend, modify. simpl.
  split; [|split; assumption]. simpl. intros name o H.
  rewrite length_alter. eauto.
Qed.

Lemma layer_wf a b st : registry_wf st -> registry_wf (snd (layer a b st)).
Proof.
  intros Hwf. rewrite layer_unfold.
  pose proof (get_wf a st Hwf) as H1.
  destruct (ComponentDefaults_get a st) as [[target|e] st1]; [|exact H1].
  pose proof (get_wf b st1 H1) as H2.
  destruct (ComponentDefaults_get b st1) as [[source|e] st2]; [|exact H2].
  apply extend_wf. exact H2.
Qed.

Lemma bind_wf {A B} (m : M Registry A) (k : A -> M Registry B) st :
  registry_wf st ->
  (forall s, registry_wf s -> registry_wf (snd (m s))) ->
  (forall a s, registry_wf s -> registry_wf (snd (k a s))) ->
  registry_wf (snd (bind m k st)).
Proof.
  intros Hwf Hm Hk. unfold bind. specialize (Hm st Hwf).
  destruct (m st) as [[a|e] s1]; [apply Hk; exact Hm | exact Hm].
Qed.

(** X5. The registry stays well formed: if every name of [ALL] leads to an
    object that exists, no two names share an object and the empty name is not
    a key, then the same holds after [__init__], after [get] and after a
    layering statement, whether they raise or not. The empty registry is well
    formed, and so is the registry the module leaves after import. *)
Theorem registry_stays_well_formed :
  registry_wf empty_registry
  /\ (forall st name incs excs,
        registry_wf st ->
        registry_wf (snd (ComponentDefaults__init__ name incs excs st)))
  /\ (forall st name,
        registry_wf st -> registry_wf (snd (ComponentDefaults_get name st)))
  /\ (forall st a b, registry_wf st -> registry_wf (snd (layer a b st)))
  /\ registry_wf builtin_registry.
Proof.
  assert (H0 : registry_wf empty_registry).
  { split; [|split]; simpl; try reflexivity; intros *; rewrite lookup_empty;
      discriminate. }
  split; [exact H0|]. split; [intros; apply init_wf; assumption|].
  split; [intros; apply get_wf; assumption|].
  split; [intros; apply layer_wf; assumption|].
  unfold builtin_registry, module_init.
  repeat (apply bind_wf;
          [try assumption
          |intros; first [apply init_wf | apply layer_wf]; assumption
          |intros ? ? ?]).
  apply layer_wf. assumption.
Qed.

(** X6. Under a non-empty name [get] always gives the same object: a second
    [get] returns what the first returned and changes nothing. Under the empty
    name, which is never a key of a well-formed registry, every [get]
    constructs another object, so what is done to one is not seen through
    the next. *)
Theorem ComponentDefaults_get_again (name : string) (st : Registry) :
  (name <> "" ->
   ComponentDefaults_get name (snd (ComponentDefaults_get name st))
   = (fst (ComponentDefaults_get name st),
      snd (ComponentDefaults_get name st)))
  /\ (ALL st !! "" = None ->
      fst (ComponentDefaults_get "" st) = Ok (length (heap st))
      /\ fst (ComponentDefaults_get "" (snd (ComponentDefaults_get "" st)))
         = Ok (S (length (heap st)))).
Proof.
  split.
  - intros Hne. unfold ComponentDefaults_get at 2 3 4.
    destruct (ALL st !! name) as [obj|] eqn:Hname.
    + simpl. unfold ComponentDefaults_get. rewrite Hname. reflexivity.
    + rewrite init_fresh by assumption. simpl.
      unfold ComponentDefaults_get. simpl. rewrite lookup_insert_eq.
      reflexivity.
  - intros Hnone. unfold ComponentDefaults_get. rewrite Hnone.
    rewrite init_unnamed. simpl. rewrite Hnone, init_unnamed. simpl.
    rewrite length_app. simpl. split; [reflexivity|]. f_equal. lia.
Qed.

Lemma ComponentDefaults_get_again_witness :
  ComponentDefaults_get "test" (snd (ComponentDefaults_get "test" builtin_registry))
  = (Ok 5, snd (ComponentDefaults_get "test" builtin_registry))
  /\ fst (ComponentDefaults_get ""
            (snd (ComponentDefaults_get "" builtin_registry))) = Ok 6.
Proof.
  destruct (ComponentDefaults_get_again "test" builtin_registry) as [H1 _].
  destruct (ComponentDefaults_get_again "" builtin_registry) as [_ H2].
  split.
  - rewrite H1 by discriminate. reflexivity.
  - apply H2. vm_compute. reflexivity.
Defined.

(** X7. A layering statement on two registered names reads the [includes] of
    the second object and appends them to the [excludes] of the first. It
    raises nothing, leaves [ALL] and every other object as they were, and does
    not look at what the [excludes] already hold: run again, it appends the
    same patterns once more. *)
Theorem layer_appends (a b : string) (st : Registry) (target source : nat)
    (cda cdb : ComponentDefaults) :
  ALL st !! a = Some target ->
  ALL st !! b = Some source ->
  heap st !! target = Some cda ->
  heap st !! source = Some cdb ->
  fst (layer a b st) = Ok tt
  /\ ALL (snd (layer a b st)) = ALL st
  /\ heap (snd (layer a b st)) !! target
     = Some (mkCD (includes cda) (excludes cda ++ includes cdb))
  /\ (forall obj, obj <> target ->
                  heap (snd (layer a b st)) !! obj = heap st !! obj)
  /\ (target <> source ->
      heap (snd (layer a b (snd (layer a b st)))) !! target
      = Some (mkCD (includes cda)
                (excludes cda ++ includes cdb ++ includes cdb))).
Proof.
  intros Ha Hb Hta Hso.
  assert (Hrun : forall s cda',
            ALL s !! a = Some target -> ALL s !! b = Some source ->
            heap s !! target = Some cda' -> heap s !! source = Some cdb ->
            layer a b s
            = (Ok tt,
               mkRegistry
                 (alter (fun cd => mkCD (includes cd) (excludes cd ++ includes cdb))
                    target (heap s))
                 (ALL s))).
  { intros s cda' Hsa Hsb Hst Hss. rewrite layer_unfold.
    unfold ComponentDefaults_get. rewrite Hsa, Hsb.
    unfold excludes_extend, modify, obj_includes. rewrite Hss. reflexivity. }
  rewrite (Hrun st cda Ha Hb Hta Hso). simpl.
  split; [reflexivity|]. split; [reflexivity|]. split; [|split].
  - rewrite list_lookup_alter_eq, Hta. reflexivity.
  - intros obj Hne. apply list_lookup_alter_ne. congruence.
  - intros Hdiff.
    rewrite (Hrun _ (mkCD (includes cda) (excludes cda ++ includes cdb)));
      simpl; try assumption.
    + rewrite list_lookup_alter_eq, list_lookup_alter_eq, Hta. simpl.
      rewrite <- app_assoc. reflexivity.
    + rewrite list_lookup_alter_eq, Hta. reflexivity.
    + rewrite list_lookup_alter_ne by exact Hdiff. exact Hso.
Qed.

Lemma layer_appends_witness :
  registered (snd (layer "doc" "dbg" builtin_registry)) "doc"
  = Some (mkCD ["**/share/doc/**"] [".build-id/**/*.debug"])
  /\ registered (snd (layer "doc" "dbg" builtin_registry)) "dev"
     = registered builtin_registry "dev".
Proof.
  destruct (layer_appends "doc" "dbg" builtin_registry 4 0
              (mkCD ["**/share/doc/**"] []) (mkCD [".build-id/**/*.debug"] []))
    as (_ & Hall & Ht & Hother & _); try (vm_compute; reflexivity).
  unfold registered. rewrite Hall. split.
  - replace (ALL builtin_registry !! "doc") with (Some 4)
      by (vm_compute; reflexivity).
    simpl. exact Ht.
  - replace (ALL builtin_registry !! "dev") with (Some 1)
      by (vm_compute; reflexivity).
    simpl. apply Hother. discriminate.
Defined.

(** ** do_artifact, call by call *)

(** X8. An entry that is not optional is never skipped, and whether its base
    directory exists is not looked at: the iteration is the same whatever
    [Path.exists] would answer, and it never ends without having gone through
    the scan and the copy. *)
Theorem required_entry_ignores_existence (FS : Type)
    (exists_a exists_b : Path -> FS -> bool)
    (add_basedir : Path -> PatternMatcher -> FS -> result PatternMatcher)
    (copy_to : PatternMatcher -> Path -> string -> bool -> M FS unit)
    (platform_system : string) (str_other : pyval -> string)
    (registry : Registry) (args : ArtifactArgs) (k : string)
    (rec : list (string * pyval)) (fs : FS) :
  evaluate_optional platform_system str_other (dict_get rec "optional") = false ->
  do_artifact_basedir FS exists_a add_basedir copy_to platform_system str_other
    registry args k (PDict rec) fs
  = do_artifact_basedir FS exists_b add_basedir copy_to platform_system
      str_other registry args k (PDict rec) fs
  /\ fst (do_artifact_basedir FS exists_a add_basedir copy_to platform_system
            str_other registry args k (PDict rec) fs) <> Ok false.
Proof.
  intros Hopt. rewrite !basedir_step_factor, Hopt. simpl.
  split; [reflexivity|].
  destruct (matcher_of registry (arg_component args) rec); [|discriminate].
  destruct (add_basedir _ _ fs); [|discriminate].
  destruct (copy_to _ _ _ false fs) as [[[]|e] fs']; discriminate.
Qed.

Lemma required_entry_ignores_existence_witness :
  do_artifact_basedir Toy.FS (fun _ _ => false) Toy.add_basedir Toy.copy_to
    "Linux" Toy.str_other builtin_registry Toy.artifact_args "stage/core"
    (PDict [("optional", PStr "windows")]) Toy.build_tree
  = do_artifact_basedir Toy.FS Toy.path_exists Toy.add_basedir Toy.copy_to
      "Linux" Toy.str_other builtin_registry Toy.artifact_args "stage/core"
      (PDict [("optional", PStr "windows")]) Toy.build_tree.
Proof.
  apply (required_entry_ignores_existence Toy.FS (fun _ _ => false)
           Toy.path_exists Toy.add_basedir Toy.copy_to "Linux" Toy.str_other
           builtin_registry Toy.artifact_args "stage/core"
           [("optional", PStr "windows")] Toy.build_tree).
  reflexivity.
Defined.

(** X9. An iteration of [do_artifact] reads the registry only for the
    defaults of its own component, and not at all when the record sets
    [default_patterns] to a falsy value: with two registries that give the
    component the same defaults, or with such a record, the iteration is the
    same. *)
Theorem do_artifact_reads_own_defaults (FS : Type)
    (path_exists : Path -> FS -> bool)
    (add_basedir : Path -> PatternMatcher -> FS -> result PatternMatcher)
    (copy_to : PatternMatcher -> Path -> string -> bool -> M FS unit)
    (platform_system : string) (str_other : pyval -> string)
    (reg1 reg2 : Registry) (args : ArtifactArgs) (k : string)
    (rec : list (string * pyval)) (fs : FS) :
  registered reg1 (arg_component args) = registered reg2 (arg_component args)
  \/ (is_Some (dict_lookup rec "default_patterns")
      /\ truthy (dict_get rec "default_patterns") = false) ->
  do_artifact_basedir FS path_exists add_basedir copy_to platform_system
    str_other reg1 args k (PDict rec) fs
  = do_artifact_basedir FS path_exists add_basedir copy_to platform_system
      str_other reg2 args k (PDict rec) fs.
Proof.
  intros H. rewrite !basedir_step_factor.
  assert (Hm : matcher_of reg1 (arg_component args) rec
               = matcher_of reg2 (arg_component args) rec).
  { unfold matcher_of. destruct H as [Hsame|[[v Hv] Hfalse]].
    - unfold defaults_for. rewrite Hsame. reflexivity.
    - unfold dict_get_default. unfold dict_get in Hfalse.
      rewrite Hv in *. rewrite Hfalse. reflexivity. }
  rewrite Hm. reflexivity.
Qed.

Lemma do_artifact_reads_own_defaults_witness :
  do_artifact_basedir Toy.FS Toy.path_exists Toy.add_basedir Toy.copy_to
    "Linux" Toy.str_other builtin_registry Toy.artifact_args "stage/core"
    (PDict []) Toy.build_tree
  = do_artifact_basedir Toy.FS Toy.path_exists Toy.add_basedir Toy.copy_to
      "Linux" Toy.str_other (snd (layer "dev" "dbg" builtin_registry))
      Toy.artifact_args "stage/core" (PDict []) Toy.build_tree.
Proof.
  apply (do_artifact_reads_own_defaults Toy.FS Toy.path_exists Toy.add_basedir
           Toy.copy_to "Linux" Toy.str_other builtin_registry
           (snd (layer "dev" "dbg" builtin_registry)) Toy.artifact_args
           "stage/core" [] Toy.build_tree).
  left. vm_compute. reflexivity.
Defined.

Lemma text_writes_app l1 l2 :
  text_writes (l1 ++ l2) = text_writes l1 ++ text_writes l2.
Proof. apply flat_map_app. Qed.

Lemma copy_targets_app l1 l2 :
  copy_targets (l1 ++ l2) = copy_targets l1 ++ copy_targets l2.
Proof. apply flat_map_app. Qed.

Section TracedArtifact.
Variable FS : Type.
Variable path_exists : Path -> FS -> bool.
Variable rmtree : Path -> M FS unit.
Variable mkdir_parents : Path -> M FS unit.
Variable write_text : Path -> string -> M FS unit.
Variable tomllib_load : Path -> FS -> result (list (string * pyval)).
Variable add_basedir : Path -> PatternMatcher -> FS -> result PatternMatcher.
Variable copy_to : PatternMatcher -> Path -> string -> bool -> M FS unit.
Variable platform_system : string.
Variable str_other : pyval -> string.
Variable registry : Registry.

Local Abbreviation t_exists :=
  (fun (p : Path) (st : FS * list Event) => path_exists p (fst st)).
Local Abbreviation t_rmtree :=
  (fun p => recorded FS (EvRmtree p) (rmtree p)).
Local Abbreviation t_mkdir :=
  (fun p => recorded FS (EvMkdir p) (mkdir_parents p)).
Local Abbreviation t_write :=
  (fun p text => recorded FS (EvWriteText p text) (write_text p text)).
Local Abbreviation t_load :=
  (fun (p : Path) (st : FS * list Event) => tomllib_load p (fst st)).
Local Abbreviation t_add :=
  (fun (p : Path) (pm : PatternMatcher) (st : FS * list Event) =>
     add_basedir p pm (fst st)).
Local Abbreviation t_copy :=
  (fun pm d pre rm => recorded FS (EvCopy pm d pre rm) (copy_to pm d pre rm)).
Local Abbreviation t_step :=
  (do_artifact_basedir (FS * list Event) t_exists t_add t_copy platform_system
     str_other registry).
Local Abbreviation t_loop :=
  (do_artifact_loop (FS * list Event) t_exists t_add t_copy platform_system
     str_other registry).
Local Abbreviation t_recreate :=
  (recreate_output_dir (FS * list Event) t_exists t_rmtree t_mkdir).
Local Abbreviation t_run :=
  (traced_do_artifact FS path_exists rmtree mkdir_parents write_text
     tomllib_load add_basedir copy_to platform_system str_other registry).

Local Abbreviation target args k :=
  (arg_output_dir args, k +:+ "/", false).

Lemma traced_step args k r fs log :
  exists evs,
    snd (snd (t_step args k r (fs, log))) = log ++ evs
    /\ text_writes evs = []
    /\ forall kept,
         fst (t_step args k r (fs, log)) = Ok kept ->
         copy_targets evs = if kept : bool then [target args k] else [].
Proof.
  destruct r as [| | | | |rec|];
    try (exists []; rewrite app_nil_r; split; [reflexivity|];
         split; [reflexivity|]; intros kept; discriminate).
  rewrite basedir_step_factor. simpl.
  destruct (evaluate_optional platform_system str_other (dict_get rec "optional")
            && negb (path_exists (joinpath (arg_root_dir args) k) fs)).
  { exists []. rewrite app_nil_r. split; [reflexivity|].
    split; [reflexivity|]. intros kept [= <-]. reflexivity. }
  destruct (matcher_of registry (arg_component args) rec) as [pm|e].
  2:{ exists []. rewrite app_nil_r. split; [reflexivity|].
      split; [reflexivity|]. intros kept; discriminate. }
  destruct (add_basedir (joinpath (arg_root_dir args) k) pm fs) as [pm'|e].
  2:{ exists []. rewrite app_nil_r. split; [reflexivity|].
      split; [reflexivity|]. intros kept; discriminate. }
  unfold recorded. simpl.
  exists [EvCopy pm' (arg_output_dir args) (k +:+ "/") false].
  destruct (copy_to pm' (arg_output_dir args) (k +:+ "/") false fs)
    as [[[]|e] fs']; simpl.
  - split; [reflexivity|]. split; [reflexivity|]. intros kept [= <-].
    reflexivity.
  - split; [reflexivity|]. split; [reflexivity|]. intros kept; discriminate.
Qed.

Lemma traced_loop args items acc fs log :
  exists evs,
    snd (snd (t_loop args items acc (fs, log))) = log ++ evs
    /\ text_writes evs = []
    /\ forall rel,
         fst (t_loop args items acc (fs, log)) = Ok rel ->
         exists kept,
           rel = acc ++ kept
           /\ copy_targets evs = List.map (fun k => target args k) kept.
Proof.
  revert acc fs log. induction items as [|[k r] items IH]; intros acc fs log.
  - exists []. simpl. rewrite app_nil_r. split; [reflexivity|].
    split; [reflexivity|]. intros rel [= <-]. exists [].
    rewrite app_nil_r. split; reflexivity.
  - simpl. unfold bind.
    destruct (traced_step args k r fs log) as (evs1 & Hlog1 & Hw1 & Hc1).
    destruct (t_step args k r (fs, log)) as [[kept|e] [fs1 log1]] eqn:Hstep;
      simpl in Hlog1.
    + subst log1.
      destruct (IH (if kept then acc ++ [k] else acc) fs1 (log ++ evs1))
        as (evs2 & Hlog2 & Hw2 & Hc2).
      exists (evs1 ++ evs2). rewrite Hlog2, app_assoc.
      split; [reflexivity|].
      split; [rewrite text_writes_app, Hw1, Hw2; reflexivity|].
      intros rel Hrel. destruct (Hc2 rel Hrel) as (more & -> & Hmore).
      specialize (Hc1 kept eq_refl). rewrite copy_targets_app, Hc1, Hmore.
      destruct kept.
      * exists (k :: more). rewrite <- app_assoc. split; reflexivity.
      * exists more. split; reflexivity.
    + exists evs1. simpl. split; [exact Hlog1|]. split; [exact Hw1|].
      intros rel; discriminate.
Qed.

Lemma traced_recreate output_dir fs log :
  exists evs,
    snd (snd (t_recreate output_dir (fs, log))) = log ++ evs
    /\ text_writes evs = []
    /\ copy_targets evs = [].
Proof.
  unfold recreate_output_dir, bind, gets, ret, recorded. simpl.
  destruct (path_exists output_dir fs); simpl.
  - destruct (rmtree output_dir fs) as [[[]|e] fs1]; simpl.
    + destruct (mkdir_parents output_dir fs1) as [[[]|e] fs2]; simpl;
        exists [EvRmtree output_dir; EvMkdir output_dir];
        rewrite <- app_assoc; repeat split; reflexivity.
    + exists [EvRmtree output_dir]. repeat split; reflexivity.
  - destruct (mkdir_parents output_dir fs) as [[[]|e] fs2]; simpl;
      exists [EvMkdir output_dir]; repeat split; reflexivity.
Qed.

(** X10. The calls of a run of [do_artifact] that completes: [write_text] is
    called once, as the last call, on the manifest; and [copy_to] is called
    once for each path of the manifest, in the order of the manifest, always
    into the output directory, under the path followed by [/], and with
    [remove_dest] false, so that no copy removes what an earlier one put
    there. *)
Theorem do_artifact_calls (args : ArtifactArgs) (fs fs' : FS)
    (log : list Event) :
  t_run args (fs, []) = (Ok tt, (fs', log)) ->
  exists rel,
    text_writes log
    = [(joinpath (arg_output_dir args) "artifact_manifest.txt",
        manifest_text rel)]
    /\ List.last log (EvMkdir (arg_output_dir args))
       = EvWriteText (joinpath (arg_output_dir args) "artifact_manifest.txt")
           (manifest_text rel)
    /\ copy_targets log
       = List.map (fun k => (arg_output_dir args, k +:+ "/", false)) rel.
Proof.
  unfold traced_do_artifact, do_artifact, load_toml_file, bind, lift. simpl.
  destruct (tomllib_load (arg_descriptor args) fs) as [loaded|e];
    [|discriminate].
  rewrite or_empty_dict.
  destruct (traced_recreate (arg_output_dir args) fs []) as (evs0 & Hl0 & Hw0 & Hc0).
  destruct (t_recreate (arg_output_dir args) (fs, [])) as [[[]|e] [fs0 log0]];
    [|discriminate].
  simpl in Hl0. subst log0.
  destruct (component_record_of loaded (arg_component args)) as [record|e];
    [|discriminate].
  destruct (as_dict record) as [items|e]; [|discriminate].
  destruct (traced_loop args items [] fs0 evs0) as (evs1 & Hl1 & Hw1 & Hc1).
  destruct (t_loop args items [] (fs0, evs0)) as [[rel|e] [fs1 log1]];
    [|discriminate].
  simpl in Hl1. subst log1.
  destruct (Hc1 rel eq_refl) as (kept & Hrel & Hkept). simpl in Hrel.
  subst kept.
  unfold recorded. simpl.
  destruct (write_text _ _ fs1) as [[[]|e] fs2]; [|discriminate].
  intros [= <- <-]. exists rel.
  rewrite !text_writes_app, !copy_targets_app, Hw0, Hw1, Hc0, Hkept. simpl.
  rewrite app_nil_r. split; [reflexivity|]. split; [|reflexivity].
  apply List.last_last.
Qed.

(** X11. A run of [do_artifact] that raises. When the descriptor cannot be
    loaded, no mutating call has been made and the filesystem is untouched:
    the old output directory is still there. Whatever the cause, a run that
    raises has not called [write_text], unless the exception is that of the
    very [write_text] that writes the manifest. *)
Theorem do_artifact_failure (args : ArtifactArgs) (fs : FS) (e : exn) :
  (tomllib_load (arg_descriptor args) fs = Raise e ->
   t_run args (fs, []) = (Raise e, (fs, [])))
  /\ (fst (t_run args (fs, [])) = Raise e ->
      text_writes (snd (snd (t_run args (fs, [])))) = []
      \/ exists rel fs1 fs2,
           write_text (joinpath (arg_output_dir args) "artifact_manifest.txt")
             (manifest_text rel) fs1 = (Raise e, fs2)
           /\ fst (snd (t_run args (fs, []))) = fs2).
Proof.
  split.
  - intros Hload.
    unfold traced_do_artifact, do_artifact, load_toml_file, bind, lift. simpl.
    rewrite Hload. reflexivity.
  - unfold traced_do_artifact, do_artifact, load_toml_file, bind, lift. simpl.
    destruct (tomllib_load (arg_descriptor args) fs) as [loaded|e0];
      [|left; reflexivity].
    rewrite or_empty_dict.
    destruct (traced_recreate (arg_output_dir args) fs [])
      as (evs0 & Hl0 & Hw0 & Hc0).
    destruct (t_recreate (arg_output_dir args) (fs, [])) as [[[]|e0] [fs0 log0]];
      simpl in Hl0; subst log0; [|left; exact Hw0].
    destruct (component_record_of loaded (arg_component args)) as [record|e0];
      [|left; exact Hw0].
    destruct (as_dict record) as [items|e0]; [|left; exact Hw0].
    destruct (traced_loop args items [] fs0 evs0) as (evs1 & Hl1 & Hw1 & Hc1).
    destruct (t_loop args items [] (fs0, evs0)) as [[rel|e0] [fs1 log1]];
      simpl in Hl1; subst log1.
    + unfold recorded. simpl.
      destruct (write_text _ _ fs1) as [[[]|e0] fs2] eqn:Hwrite;
        [discriminate|].
      simpl. intros [= ->]. right. exists rel, fs1, fs2.
      split; [exact Hwrite | reflexivity].
    + simpl. intros _. left. rewrite text_writes_app, Hw0, Hw1. reflexivity.
Qed.

End TracedArtifact.

Lemma do_artifact_calls_witness :
  exists rel,
    copy_targets
      (snd (snd (traced_do_artifact Toy.FS Toy.path_exists Toy.rmtree
                   Toy.mkdir_parents Toy.write_text
                   (Toy.tomllib_load Toy.descriptor) Toy.add_basedir
                   Toy.copy_to "Linux" Toy.str_other builtin_registry
                   Toy.artifact_args (Toy.build_tree, []))))
    = List.map (fun k => (Path_of "out/lib", k +:+ "/", false)) rel
    /\ rel = ["stage/core"].
Proof.
  pose (out := traced_do_artifact Toy.FS Toy.path_exists Toy.rmtree
                 Toy.mkdir_parents Toy.write_text
                 (Toy.tomllib_load Toy.descriptor) Toy.add_basedir Toy.copy_to
                 "Linux" Toy.str_other builtin_registry Toy.artifact_args
                 (Toy.build_tree, [])).
  assert (E : out = (Ok tt, (fst (snd out), snd (snd out))))
    by (vm_compute; reflexivity).
  destruct (do_artifact_calls Toy.FS Toy.path_exists Toy.rmtree
              Toy.mkdir_parents Toy.write_text
              (Toy.tomllib_load Toy.descriptor) Toy.add_basedir Toy.copy_to
              "Linux" Toy.str_other builtin_registry Toy.artifact_args
              Toy.build_tree _ _ E) as (rel & _ & _ & Hc).
  exists ["stage/core"]. split; [|reflexivity].
  vm_compute. reflexivity.
Defined.

(** ** The manifest, written and read back *)

Lemma append_step (cur : string) (c : ascii) (s : string) :
  (cur +:+ String c EmptyString) +:+ s = cur +:+ String c s.
Proof.
  induction cur as [|d cur IH]; [reflexivity|].
  change (String d ((cur +:+ String c EmptyString) +:+ s)
          = String d (cur +:+ String c s)).
  rewrite IH. reflexivity.
Qed.

Lemma append_empty_r (s : string) : s +:+ "" = s.
Proof.
  induction s as [|d s IH]; [reflexivity|].
  change (String d (s +:+ "") = String d s). rewrite IH. reflexivity.
Qed.

Lemma append_assoc3 (a b c : string) : (a +:+ b) +:+ c = a +:+ (b +:+ c).
Proof.
  induction a as [|d a IH]; [reflexivity|].
  change (String d ((a +:+ b) +:+ c) = String d (a +:+ (b +:+ c))).
  rewrite IH. reflexivity.
Qed.

Lemma splitlines_aux_line (s rest cur : string) (started : bool) :
  has_linebreak s = false ->
  splitlines_aux (s +:+ nl +:+ rest) cur started
  = (cur +:+ s) :: splitlines_aux rest "" false.
Proof.
  revert cur started. induction s as [|c s IH]; intros cur started Hs.
  - rewrite append_empty_r. destruct rest; reflexivity.
  - simpl in Hs. apply orb_false_iff in Hs as [Hc Hs].
    change (String c s +:+ nl +:+ rest) with (String c (s +:+ nl +:+ rest)).
    cbn [splitlines_aux]. rewrite Hc. rewrite IH by exact Hs.
    rewrite append_step. reflexivity.
Qed.

Lemma splitlines_manifest_text (k : string) (rest : list string) :
  (forall x, In x (k :: rest) -> has_linebreak x = false) ->
  splitlines (manifest_text (k :: rest)) = k :: rest.
Proof.
  unfold splitlines, manifest_text. revert k.
  induction rest as [|y rest IH]; intros k Hfree.
  - change (join nl [k] +:+ nl) with (k +:+ nl +:+ "").
    rewrite splitlines_aux_line by (apply Hfree; left; reflexivity).
    reflexivity.
  - change (join nl (k :: y :: rest)) with (k +:+ nl +:+ join nl (y :: rest)).
    rewrite !append_assoc3.
    rewrite splitlines_aux_line by (apply Hfree; left; reflexivity).
    rewrite IH by (intros x Hx; apply Hfree; right; exact Hx).
    reflexivity.
Qed.

(** X12. The manifest text [do_artifact] writes, split into lines the way
    [do_artifact_archive] reads it, gives back the list of paths in the same
    order, provided no path holds a line-break character and there is at
    least one path. For no path at all the text is one newline and reads back
    as a single blank line. *)
Theorem manifest_round_trip (rel : list string) :
  (forall k, In k rel -> has_linebreak k = false) ->
  (rel <> [] -> splitlines (manifest_text rel) = rel)
  /\ (rel = [] -> splitlines (manifest_text rel) = [""]).
Proof.
  intros Hfree. split.
  - destruct rel as [|k rest]; [contradiction|]. intros _.
    apply splitlines_manifest_text. exact Hfree.
  - intros ->. reflexivity.
Qed.

Lemma manifest_round_trip_witness :
  splitlines (manifest_text ["stage/core"; "stage/extra"])
  = ["stage/core"; "stage/extra"].
Proof.
  apply (manifest_round_trip ["stage/core"; "stage/extra"]).
  - intros k [<-|[<-|[]]]; reflexivity.
  - discriminate.
Defined.

(** ** do_artifact_archive, further *)

Section ArchiveMore.
Variable FS : Type.
Variable path_exists : Path -> FS -> bool.
Variable read_text : Path -> FS -> result string.
Variable add_basedir : Path -> PatternMatcher -> FS -> result PatternMatcher.
Variable abspath : Path -> Path.
Variable tarfile_gettarinfo : Path -> FS -> result bool.

Local Abbreviation relpaths_loop :=
  (archive_relpaths FS path_exists add_basedir abspath
     tarfile_gettarinfo).
Local Abbreviation artifact_step :=
  (archive_artifact FS path_exists read_text add_basedir abspath
     tarfile_gettarinfo).
Local Abbreviation artifacts_loop :=
  (archive_artifacts FS path_exists read_text add_basedir abspath
     tarfile_gettarinfo).

(** X13. What [do_artifact] writes is what [do_artifact_archive] replays.
    When the manifest of an artifact directory holds the text written for the
    paths [rel], none of them with a line-break character, archiving the
    directory adds the manifest and then goes through exactly the paths
    [rel], in their order. This also holds for no path at all: the single
    blank line is passed over. *)
Theorem archive_replays_manifest (fs : FS) (artifact_path : Path)
    (rel : list string) (arc : TarFile) :
  (forall k, In k rel -> has_linebreak k = false) ->
  read_text (joinpath artifact_path "artifact_manifest.txt") fs
  = Ok (manifest_text rel) ->
  artifact_step fs artifact_path arc
  = bind (arc_add FS abspath tarfile_gettarinfo fs
            (joinpath artifact_path "artifact_manifest.txt")
            "artifact_manifest.txt")
      (fun _ => relpaths_loop fs artifact_path rel) arc.
Proof.
  intros Hfree Htext. unfold archive_artifact, bind at 1, lift.
  rewrite Htext, path_name_manifest. unfold bind.
  destruct (arc_add FS abspath tarfile_gettarinfo fs _ "artifact_manifest.txt" arc)
    as [[[]|e] arc1]; [|reflexivity].
  destruct rel as [|k rest].
  - reflexivity.
  - rewrite splitlines_manifest_text by exact Hfree. reflexivity.
Qed.

Lemma artifacts_loop_app fs xs ys arc :
  artifacts_loop fs (xs ++ ys) arc =
  match artifacts_loop fs xs arc with
  | (Ok _, arc1) => artifacts_loop fs ys arc1
  | (Raise e, arc1) => (Raise e, arc1)
  end.
Proof.
  revert arc. induction xs as [|a xs IH]; intros arc; simpl.
  - reflexivity.
  - unfold bind. destruct (artifact_step fs a arc) as [[[]|e] arc1].
    + apply IH.
    + reflexivity.
Qed.

(** X14. An artifact directory whose manifest cannot be read stops the
    archive loop with the exception of the read. The archive then holds the
    members of the artifact directories before it, complete and in order, and
    nothing of that directory or of those after it. *)
Theorem archive_stops_at_unreadable_manifest (fs : FS) (before after : list Path)
    (artifact_path : Path) (arc arc1 : TarFile) (e : exn) :
  artifacts_loop fs before arc = (Ok tt, arc1) ->
  read_text (joinpath artifact_path "artifact_manifest.txt") fs = Raise e ->
  artifacts_loop fs (before ++ artifact_path :: after) arc = (Raise e, arc1)
  /\ tf_members arc1
     = tf_members arc
       ++ archive_layout FS path_exists read_text add_basedir abspath
            tarfile_gettarinfo fs (tf_path arc) before.
Proof.
  intros Hbefore Hread. split.
  - rewrite artifacts_loop_app, Hbefore. simpl.
    unfold bind, archive_artifact, bind, lift. rewrite Hread. reflexivity.
  - apply artifacts_outcome in Hbefore as [_ ->]. reflexivity.
Qed.

End ArchiveMore.

Lemma archive_replays_manifest_witness :
  archive_artifact Toy.FS Toy.path_exists Toy.read_text Toy.add_basedir
    Toy.abspath Toy.tarfile_gettarinfo Toy.artifacts_fs (Path_of "out/lib")
    (mkTarFile (Path_of "dist/lib.tar.xz") 6 [])
  = bind (arc_add Toy.FS Toy.abspath Toy.tarfile_gettarinfo Toy.artifacts_fs
            (joinpath (Path_of "out/lib") "artifact_manifest.txt")
            "artifact_manifest.txt")
      (fun _ =>
         archive_relpaths Toy.FS Toy.path_exists Toy.add_basedir
           Toy.abspath Toy.tarfile_gettarinfo Toy.artifacts_fs (Path_of "out/lib")
           ["stage/core"])
      (mkTarFile (Path_of "dist/lib.tar.xz") 6 []).
Proof.
  apply (archive_replays_manifest Toy.FS Toy.path_exists Toy.read_text
           Toy.add_basedir Toy.abspath Toy.tarfile_gettarinfo Toy.artifacts_fs
           (Path_of "out/lib") ["stage/core"]).
  - intros k [<-|[]]. reflexivity.
  - reflexivity.
Defined.

Lemma archive_stops_at_unreadable_manifest_witness :
  fst (archive_artifacts Toy.FS Toy.path_exists Toy.read_text Toy.add_basedir
         Toy.abspath Toy.tarfile_gettarinfo Toy.artifacts_fs
         [Path_of "out/lib"; Path_of "out/missing"; Path_of "out/doc"]
         (mkTarFile (Path_of "dist/lib.tar.xz") 6 []))
  = Raise (OSError "FileNotFoundError").
Proof.
  pose (arc1 := snd (archive_artifacts Toy.FS Toy.path_exists Toy.read_text
                       Toy.add_basedir Toy.abspath Toy.tarfile_gettarinfo Toy.artifacts_fs
                       [Path_of "out/lib"]
                       (mkTarFile (Path_of "dist/lib.tar.xz") 6 []))).
  destruct (archive_stops_at_unreadable_manifest Toy.FS Toy.path_exists
              Toy.read_text Toy.add_basedir Toy.abspath Toy.tarfile_gettarinfo Toy.artifacts_fs
              [Path_of "out/lib"] [Path_of "out/doc"] (Path_of "out/missing")
              (mkTarFile (Path_of "dist/lib.tar.xz") 6 []) arc1
              (OSError "FileNotFoundError")) as [H _].
  - vm_compute. reflexivity.
  - vm_compute. reflexivity.
  - simpl app in H. rewrite H. reflexivity.
Defined.

Lemma closes_app l1 l2 : closes (l1 ++ l2) = closes l1 ++ closes l2.
Proof. apply flat_map_app. Qed.

Lemma hash_writes_app l1 l2 :
  hash_writes (l1 ++ l2) = hash_writes l1 ++ hash_writes l2.
Proof. apply flat_map_app. Qed.

Section TracedArchive.
Variable FS : Type.
Variable path_exists : Path -> FS -> bool.
Variable read_text : Path -> FS -> result string.
Variable unlink : Path -> M FS unit.
Variable mkdir_parents : Path -> M FS unit.
Variable add_basedir : Path -> PatternMatcher -> FS -> result PatternMatcher.
Variable tarfile_create : Path -> Z -> M FS unit.
Variable tarfile_close : TarFile -> M FS unit.
Variable abspath : Path -> Path.
Variable tarfile_gettarinfo : Path -> FS -> result bool.
Variable calculate_hash : Path -> string -> FS -> result string.
Variable write_hash : Path -> string -> M FS unit.

Local Abbreviation t_exists :=
  (fun (p : Path) (st : FS * list Event) => path_exists p (fst st)).
Local Abbreviation t_read :=
  (fun (p : Path) (st : FS * list Event) => read_text p (fst st)).
Local Abbreviation t_add :=
  (fun (p : Path) (pm : PatternMatcher) (st : FS * list Event) =>
     add_basedir p pm (fst st)).
Local Abbreviation t_info :=
  (fun (p : Path) (st : FS * list Event) => tarfile_gettarinfo p (fst st)).
Local Abbreviation t_run :=
  (traced_do_artifact_archive FS path_exists read_text unlink mkdir_parents
     add_basedir tarfile_create tarfile_close abspath tarfile_gettarinfo
     calculate_hash write_hash).
Local Abbreviation artifacts_loop :=
  (archive_artifacts FS path_exists read_text add_basedir abspath
     tarfile_gettarinfo).

Lemma traced_add st path name arc :
  arc_add (FS * list Event) abspath t_info st path name arc
  = arc_add FS abspath tarfile_gettarinfo (fst st) path name arc.
Proof. reflexivity. Qed.

Lemma traced_entries st relpath entries arc :
  archive_entries (FS * list Event) abspath t_info st relpath entries arc
  = archive_entries FS abspath tarfile_gettarinfo (fst st) relpath entries arc.
Proof.
  revert arc. induction entries as [|[subpath dir_entry] rest IH]; intros arc;
    simpl; [reflexivity|].
  unfold bind. rewrite traced_add.
  destruct (arc_add FS abspath tarfile_gettarinfo (fst st) (de_path dir_entry)
              (relpath +:+ "/" +:+ subpath) arc) as [[[]|e] arc1];
    [apply IH | reflexivity].
Qed.

Lemma traced_relpaths st artifact_path relpaths arc :
  archive_relpaths (FS * list Event) t_exists t_add abspath t_info st
    artifact_path relpaths arc
  = archive_relpaths FS path_exists add_basedir abspath tarfile_gettarinfo
      (fst st) artifact_path relpaths arc.
Proof.
  revert arc. induction relpaths as [|relpath rest IH]; intros arc; simpl;
    [reflexivity|].
  unfold bind.
  assert (Hstep :
    archive_relpath (FS * list Event) t_exists t_add abspath t_info st
      artifact_path relpath arc
    = archive_relpath FS path_exists add_basedir abspath tarfile_gettarinfo
        (fst st) artifact_path relpath arc).
  { unfold archive_relpath. destruct (String.eqb relpath ""); [reflexivity|].
    destruct (negb (path_exists (joinpath artifact_path relpath) (fst st)));
      [reflexivity|].
    unfold bind, lift.
    destruct (add_basedir (joinpath artifact_path relpath)
                (PatternMatcher_new [] [] []) (fst st)); [|reflexivity].
    apply traced_entries. }
  rewrite Hstep.
  destruct (archive_relpath FS path_exists add_basedir abspath
              tarfile_gettarinfo (fst st) artifact_path relpath arc)
    as [[[]|e] arc1]; [apply IH | reflexivity].
Qed.

Lemma traced_artifacts st artifacts arc :
  archive_artifacts (FS * list Event) t_exists t_read t_add abspath t_info st
    artifacts arc
  = artifacts_loop (fst st) artifacts arc.
Proof.
  revert arc. induction artifacts as [|a rest IH]; intros arc; simpl;
    [reflexivity|].
  unfold bind.
  assert (Hstep :
    archive_artifact (FS * list Event) t_exists t_read t_add abspath t_info st
      a arc
    = archive_artifact FS path_exists read_text add_basedir abspath
        tarfile_gettarinfo (fst st) a arc).
  { unfold archive_artifact, bind, lift.
    destruct (read_text (joinpath a "artifact_manifest.txt") (fst st));
      [|reflexivity].
    rewrite traced_add.
    destruct (arc_add FS abspath tarfile_gettarinfo (fst st)
                (joinpath a "artifact_manifest.txt")
                (path_name (joinpath a "artifact_manifest.txt")) arc)
      as [[[]|e] arc1]; [|reflexivity].
    apply traced_relpaths. }
  rewrite Hstep.
  destruct (archive_artifact FS path_exists read_text add_basedir abspath
              tarfile_gettarinfo (fst st) a arc) as [[[]|e] arc1];
    [apply IH | reflexivity].
Qed.

(** X15. The calls of [do_artifact_archive] around the archive. A run that
    completes has closed exactly the archive it returns, and has written one
    hash, as its last call, when a hash file was asked for and none
    otherwise. In any run, also one that raises, a hash is written only after
    the loop over the artifact directories has completed and its archive has
    been closed; and never more than one archive is closed. *)
Theorem archive_hash_after_close (args : ArchiveArgs) (fs : FS) :
  let out := t_run args (fs, []) in
  let log := snd (snd out) in
  (forall arc,
     fst out = Ok arc ->
     closes log = [arc]
     /\ match arg_hash_file args with
        | None => hash_writes log = []
        | Some hash_file =>
            exists digest,
              hash_writes log = [(hash_file, digest)]
              /\ List.last log (EvClose arc) = EvWriteHash hash_file digest
        end)
  /\ (forall hash_file digest,
        In (hash_file, digest) (hash_writes log) ->
        exists arc fs1,
          closes log = [arc]
          /\ artifacts_loop fs1 (arg_artifact args)
               (mkTarFile (arg_o args) (arg_compression_level args) [])
             = (Ok tt, arc))
  /\ length (closes log) <= 1.
Proof.
  cbv zeta.
  unfold traced_do_artifact_archive, do_artifact_archive, _open_archive, bind,
    gets, ret, lift. simpl.
  assert (Hprep : exists evs,
            snd (snd ((if path_exists (arg_o args) fs
                       then recorded FS (EvUnlink (arg_o args))
                              (unlink (arg_o args))
                       else fun s => (Ok tt, s)) (fs, []))) = evs
            /\ closes evs = [] /\ hash_writes evs = []).
  { destruct (path_exists (arg_o args) fs); unfold recorded; simpl.
    - destruct (unlink (arg_o args) fs) as [r fsa]. eexists.
      split; [reflexivity|]. split; reflexivity.
    - eexists. split; [reflexivity|]. split; reflexivity. }
  destruct Hprep as (evs & Hevs & Hca & Hha).
  destruct ((if path_exists (arg_o args) fs
             then recorded FS (EvUnlink (arg_o args)) (unlink (arg_o args))
             else fun s => (Ok tt, s)) (fs, [])) as [[[]|e] [fsa loga]];
    simpl in Hevs; subst loga.
  2:{ simpl. rewrite Hca, Hha. repeat split; try discriminate;
        [intros ? ? [] | simpl; lia]. }
  unfold recorded. cbn [fst snd].
  destruct (mkdir_parents (path_parent (arg_o args)) fsa) as [[[]|e] fsb];
    cbn [fst snd].
  2:{ rewrite !closes_app, !hash_writes_app, Hca, Hha. simpl.
      repeat split; try discriminate; [intros ? ? [] | simpl; lia]. }
  destruct (tarfile_create (arg_o args) (arg_compression_level args) fsb)
    as [[[]|e] fs1]; cbn [fst snd].
  2:{ rewrite !closes_app, !hash_writes_app, Hca, Hha. simpl.
      repeat split; try discriminate; [intros ? ? [] | simpl; lia]. }
  rewrite traced_artifacts. cbn [fst snd].
  destruct (artifacts_loop fs1 (arg_artifact args)
              (mkTarFile (arg_o args) (arg_compression_level args) []))
    as [outcome arc1] eqn:Hloop.
  cbn [fst snd].
  destruct (tarfile_close arc1 fs1) as [[[]|e] fsc]; cbn [fst snd].
  2:{ rewrite !closes_app, !hash_writes_app, Hca, Hha. simpl.
      repeat split; try discriminate; [intros ? ? [] | simpl; lia]. }
  destruct outcome as [[]|e]; cbn [fst snd].
  2:{ rewrite !closes_app, !hash_writes_app, Hca, Hha. simpl.
      repeat split; try discriminate; [intros ? ? [] | simpl; lia]. }
  destruct (arg_hash_file args) as [hash_file|]; cbn [fst snd].
  - destruct (calculate_hash (arg_o args) (arg_hash_algorithm args) fsc)
      as [digest|e]; cbn [fst snd].
    + destruct (write_hash hash_file digest fsc) as [[[]|e] fsd]; cbn [fst snd];
        rewrite !closes_app, !hash_writes_app, Hca, Hha; simpl.
      * split; [|split; [|simpl; lia]].
        -- intros arc [= <-]. split; [reflexivity|]. exists digest.
           split; [reflexivity | apply List.last_last].
        -- intros h d _. exists arc1, fs1. split; [reflexivity | exact Hloop].
      * split; [|split; [|simpl; lia]].
        -- intros arc; discriminate.
        -- intros h d _. exists arc1, fs1. split; [reflexivity | exact Hloop].
    + rewrite !closes_app, !hash_writes_app, Hca, Hha. simpl.
      repeat split; try discriminate; [intros ? ? [] | simpl; lia].
  - rewrite !closes_app, !hash_writes_app, Hca, Hha. simpl.
    split; [|split; [|simpl; lia]].
    + intros arc [= <-]. split; reflexivity.
    + intros ? ? [].
Qed.

End TracedArchive.

(** ** _do_artifact_flatten *)

(** X16. [_do_artifact_flatten] prints every path the populator reported,
    each as many times as it was reported, in ascending code-point order. The
    printed sequence is the only sorted arrangement of those paths, so it does
    not depend on the order in which the populator enumerates them. When the
    populator raises, so does the command, with the same exception. *)
Theorem flatten_prints_sorted (FS : Type)
    (populate_flat : Path -> bool -> list Path -> M FS (list string))
    (args : FlattenArgs) (fs fs' : FS) :
  (forall relpaths,
     populate_flat (flat_o args) (flat_verbose args) (flat_artifact args) fs
     = (Ok relpaths, fs') ->
     exists lines,
       _do_artifact_flatten FS populate_flat args fs = (Ok lines, fs')
       /\ Sorted String.le lines
       /\ Permutation lines relpaths
       /\ forall other,
            Permutation other relpaths -> Sorted String.le other ->
            other = lines)
  /\ (forall e,
        populate_flat (flat_o args) (flat_verbose args) (flat_artifact args) fs
        = (Raise e, fs') ->
        _do_artifact_flatten FS populate_flat args fs = (Raise e, fs')).
Proof.
  split.
  - intros relpaths Hpop. exists (merge_sort String.le relpaths).
    unfold _do_artifact_flatten, bind, ret. rewrite Hpop.
    split; [reflexivity|].
    split; [apply (Sorted_merge_sort String.le)|].
    split; [apply merge_sort_Permutation|].
    intros other Hperm Hsorted.
    apply (Sorted_unique String.le); [exact Hsorted | |].
    + apply (Sorted_merge_sort String.le).
    + rewrite Hperm. symmetry. apply merge_sort_Permutation.
  - intros e Hpop. unfold _do_artifact_flatten, bind. rewrite Hpop.
    reflexivity.
Qed.

Lemma flatten_prints_sorted_witness :
  fst (_do_artifact_flatten Toy.FS
         (fun _ _ _ fs => (Ok ["lib/libb.so"; "bin/tool"; "lib/liba.so"], fs))
         (mkFlattenArgs [Path_of "out/lib"] (Path_of "flat") false)
         Toy.build_tree)
  = Ok ["bin/tool"; "lib/liba.so"; "lib/libb.so"].
Proof.
  destruct (flatten_prints_sorted Toy.FS
              (fun _ _ _ fs => (Ok ["lib/libb.so"; "bin/tool"; "lib/liba.so"], fs))
              (mkFlattenArgs [Path_of "out/lib"] (Path_of "flat") false)
              Toy.build_tree Toy.build_tree) as [H _].
  destruct (H _ eq_refl) as (lines & Hrun & _ & _ & Huniq).
  rewrite Hrun. simpl. f_equal. symmetry. apply Huniq.
  - symmetry.
    apply (Permutation_cons_append ["bin/tool"; "lib/liba.so"] "lib/libb.so").
  - repeat (constructor; try (vm_compute; exact I)).
Defined.

(** ** Runs that stop half way, and where members come from *)

(** X17. An entry of the component's record that is not a table raises
    [AttributeError] when the loop reaches it. The run stops there: the
    filesystem is left as the earlier entries made it, with what they copied
    still in the output directory, the later entries are not looked at, and
    no manifest is written. *)
Theorem do_artifact_keeps_partial_output (FS : Type)
    (path_exists : Path -> FS -> bool) (rmtree mkdir_parents : Path -> M FS unit)
    (write_text : Path -> string -> M FS unit)
    (tomllib_load : Path -> FS -> result (list (string * pyval)))
    (add_basedir : Path -> PatternMatcher -> FS -> result PatternMatcher)
    (copy_to : PatternMatcher -> Path -> string -> bool -> M FS unit)
    (platform_system : string) (str_other : pyval -> string)
    (registry : Registry) (args : ArtifactArgs) (fs fs0 fs1 : FS)
    (loaded pre post : list (string * pyval)) (k : string) (v : pyval)
    (acc1 : list string) :
  tomllib_load (arg_descriptor args) fs = Ok loaded ->
  recreate_output_dir FS path_exists rmtree mkdir_parents (arg_output_dir args)
    fs = (Ok tt, fs0) ->
  component_record_of loaded (arg_component args)
  = Ok (PDict (pre ++ (k, v) :: post)) ->
  do_artifact_loop FS path_exists add_basedir copy_to platform_system str_other
    registry args pre [] fs0 = (Ok acc1, fs1) ->
  (forall rec, v <> PDict rec) ->
  do_artifact FS path_exists rmtree mkdir_parents write_text tomllib_load
    add_basedir copy_to platform_system str_other registry args fs
  = (Raise AttributeError, fs1).
Proof.
  intros Hload Hrec Hcomp Hpre Hv.
  rewrite (run_from_loop _ _ _ _ _ _ _ _ _ _ _ _ _ _ _ _ Hload Hrec Hcomp).
  rewrite loop_app, Hpre. simpl. unfold bind.
  assert (Hstep : do_artifact_basedir FS path_exists add_basedir copy_to
                    platform_system str_other registry args k v fs1
                  = (Raise AttributeError, fs1)).
  { destruct v; try reflexivity. exfalso. eapply Hv. reflexivity. }
  rewrite Hstep. reflexivity.
Qed.

Lemma do_artifact_keeps_partial_output_witness :
  fst (Toy.run_artifact "Linux"
         [("components",
           PDict [("lib", PDict [("stage/core", PDict []);
                                 ("stage/extra", PStr "oops")])])]
         Toy.artifact_args Toy.build_tree)
  = Raise AttributeError.
Proof.
  pose (d := [("components",
               PDict [("lib", PDict [("stage/core", PDict []);
                                     ("stage/extra", PStr "oops")])])]).
  pose (st1 := do_artifact_loop Toy.FS Toy.path_exists Toy.add_basedir
                 Toy.copy_to "Linux" Toy.str_other builtin_registry
                 Toy.artifact_args [("stage/core", PDict [])] []
                 Toy.build_tree).
  assert (H : Toy.run_artifact "Linux" d Toy.artifact_args Toy.build_tree
              = (Raise AttributeError, snd st1)).
  { apply (do_artifact_keeps_partial_output Toy.FS Toy.path_exists Toy.rmtree
             Toy.mkdir_parents Toy.write_text (Toy.tomllib_load d)
             Toy.add_basedir Toy.copy_to "Linux" Toy.str_other
             builtin_registry Toy.artifact_args Toy.build_tree Toy.build_tree
             (snd st1) d [("stage/core", PDict [])] [] "stage/extra"
             (PStr "oops") ["stage/core"]); try reflexivity.
    discriminate. }
  exact (f_equal fst H).
Defined.

(** X18. Where the members of a completed archive come from. Each member is
    read from a file that [TarFile.add] does not pass over, and is either
    the manifest of one of the artifact directories, stored as
    [artifact_manifest.txt], or an item that the scan of an existing
    directory named by a non-blank manifest line recorded, stored under that
    line, a [/] and the item's path, without leading slashes. When the line
    does not start with a slash, the name of such a member is the line, a [/]
    and the item's path as they are, and so has a [/] in it. *)
Theorem archive_members_origin (FS : Type) (path_exists : Path -> FS -> bool)
    (read_text : Path -> FS -> result string)
    (unlink mkdir_parents : Path -> M FS unit)
    (add_basedir : Path -> PatternMatcher -> FS -> result PatternMatcher)
    (tarfile_create : Path -> Z -> M FS unit)
    (tarfile_close : TarFile -> M FS unit)
    (abspath : Path -> Path)
    (tarfile_gettarinfo : Path -> FS -> result bool)
    (calculate_hash : Path -> string -> FS -> result string)
    (write_hash : Path -> string -> M FS unit)
    (args : ArchiveArgs) (fs fs' : FS) (arc : TarFile) :
  do_artifact_archive FS path_exists read_text unlink mkdir_parents add_basedir
    tarfile_create tarfile_close abspath tarfile_gettarinfo calculate_hash
    write_hash args fs
  = (Ok arc, fs') ->
  exists fs1,
    forall m,
      In m (tf_members arc) ->
      passed_over FS abspath tarfile_gettarinfo fs1 (arg_o args) (source m)
      = false
      /\ ((exists a, In a (arg_artifact args) /\ m = manifest_member a)
          \/ (exists a relpath entry,
                In a (arg_artifact args)
                /\ In relpath (manifest_lines FS read_text fs1 a)
                /\ relpath <> ""
                /\ path_exists (joinpath a relpath) fs1 = true
                /\ In entry (scanned FS add_basedir fs1 a relpath)
                /\ m = mkTarMember
                         (lstrip_slash (relpath +:+ "/" +:+ fst entry))
                         (de_path (snd entry))
                /\ (forall c line,
                      relpath = String c line ->
                      Ascii.eqb c slash = false ->
                      m = member_of relpath entry
                      /\ has_slash (arcname m) = true))).
Proof.
  intros Hrun.
  apply run_layout in Hrun as (fs1 & _ & Hm). exists fs1. rewrite Hm.
  intros m Hin. split; [apply layout_members_kept in Hin; exact Hin|].
  unfold archive_layout in Hin.
  apply in_flat_map in Hin as (a & Ha & Hin).
  apply in_app_or in Hin as [Hman|Hpay].
  - left. exists a. split; [exact Ha|].
    unfold stored_manifest, stored in Hman.
    destruct (bool_decide _); [destruct Hman|].
    destruct (tarfile_gettarinfo _ fs1) as [[]|e];
      [|destruct Hman|destruct Hman].
    destruct Hman as [<-|[]]. reflexivity.
  - right. unfold artifact_payload in Hpay.
    apply in_flat_map in Hpay as (relpath & Hline & Hm').
    unfold payload_of in Hm'.
    destruct (String.eqb_spec relpath "") as [|Hne]; [destruct Hm'|].
    destruct (path_exists (joinpath a relpath) fs1) eqn:Hex; [|destruct Hm'].
    simpl in Hm'. apply in_flat_map in Hm' as (entry & Hentry & Hm').
    unfold stored_entry, stored in Hm'.
    destruct (bool_decide _); [destruct Hm'|].
    destruct (tarfile_gettarinfo _ fs1) as [[]|e];
      [|destruct Hm'|destruct Hm'].
    destruct Hm' as [<-|[]].
    exists a, relpath, entry. repeat apply conj; try assumption;
      [reflexivity|].
    intros c line -> Hc. unfold member_of.
    change (String c line +:+ "/" +:+ fst entry)
      with (String c (line +:+ "/" +:+ fst entry)).
    rewrite lstrip_slash_relative by exact Hc.
    split; [reflexivity|].
    change (arcname (mkTarMember (String c (line +:+ "/" +:+ fst entry))
                       (de_path (snd entry))))
      with (String c line +:+ "/" +:+ fst entry).
    apply has_slash_app.
Qed.

Lemma archive_members_origin_witness :
  exists arc,
    fst (Toy.run_archive Toy.archive_args Toy.artifacts_fs) = Ok arc
    /\ exists fs1,
         forall m,
           In m (tf_members arc) ->
           passed_over Toy.FS Toy.abspath Toy.tarfile_gettarinfo fs1
             (arg_o Toy.archive_args) (source m) = false.
Proof.
  destruct (Toy.run_archive Toy.archive_args Toy.artifacts_fs)
    as [[arc|e] fs'] eqn:E; [|vm_compute in E; discriminate].
  exists arc. split; [reflexivity|].
  destruct (archive_members_origin Toy.FS Toy.path_exists Toy.read_text
              Toy.unlink Toy.mkdir_parents Toy.add_basedir Toy.tarfile_create
              Toy.tarfile_close Toy.abspath Toy.tarfile_gettarinfo
              Toy.calculate_hash Toy.write_hash Toy.archive_args
              Toy.artifacts_fs fs' arc E)
    as (fs1 & H).
  exists fs1. intros m Hm. apply (H m Hm).
Defined.

(** X19. The descriptor is checked late. When the [components] entry of the
    descriptor is not a table, [do_artifact] raises [TypeError], and it does
    so after it has removed and recreated the output directory: the
    filesystem it leaves is the one with the fresh, empty output directory. *)
Theorem do_artifact_checks_descriptor_late (FS : Type)
    (path_exists : Path -> FS -> bool) (rmtree mkdir_parents : Path -> M FS unit)
    (write_text : Path -> string -> M FS unit)
    (tomllib_load : Path -> FS -> result (list (string * pyval)))
    (add_basedir : Path -> PatternMatcher -> FS -> result PatternMatcher)
    (copy_to : PatternMatcher -> Path -> string -> bool -> M FS unit)
    (platform_system : string) (str_other : pyval -> string)
    (registry : Registry) (args : ArtifactArgs) (fs fs0 : FS)
    (loaded : list (string * pyval)) (v : pyval) :
  tomllib_load (arg_descriptor args) fs = Ok loaded ->
  recreate_output_dir FS path_exists rmtree mkdir_parents (arg_output_dir args)
    fs = (Ok tt, fs0) ->
  dict_lookup loaded "components" = Some v ->
  (forall comps, v <> PDict comps) ->
  do_artifact FS path_exists rmtree mkdir_parents write_text tomllib_load
    add_basedir copy_to platform_system str_other registry args fs
  = (Raise TypeError, fs0).
Proof.
  intros Hload Hrec Hcomps Hv.
  unfold do_artifact, load_toml_file, bind, lift.
  rewrite Hload, or_empty_dict, Hrec.
  unfold component_record_of. rewrite Hcomps.
  destruct v; try reflexivity. exfalso. eapply Hv. reflexivity.
Qed.

Lemma do_artifact_checks_descriptor_late_witness :
  Toy.run_artifact "Linux" [("components", PStr "lib")] Toy.artifact_args
    [(Path_of "out/lib/old.txt", "old")]
  = (Raise TypeError, []).
Proof.
  apply (do_artifact_checks_descriptor_late Toy.FS Toy.path_exists Toy.rmtree
           Toy.mkdir_parents Toy.write_text
           (Toy.tomllib_load [("components", PStr "lib")]) Toy.add_basedir
           Toy.copy_to "Linux" Toy.str_other builtin_registry
           Toy.artifact_args [(Path_of "out/lib/old.txt", "old")] []
           [("components", PStr "lib")] (PStr "lib")); try reflexivity.
  discriminate.
Defined.
